(** * Task tracker (tatra.cpp): a shallow embedding and its properties

    The program is a single C++ file: a record class [TaskTracker], a store
    class [TaskManager] that loads a JSON-like file when it is constructed and
    rewrites it after every mutation, and a [main] that dispatches one CLI
    verb.  The embedding below follows the source function by function:
    [std::string] is [string] (8-bit characters), [size_t] is a [Z] reduced
    modulo 2^64, [int] is a [Z] reduced to the signed 32-bit range, the file
    and standard output are threaded through a [World] record, and C++
    exceptions are a [Throw] result. *)

From Stdlib Require Import ZArith List String Ascii Bool Lia.
Import ListNotations.
Open Scope string_scope.
Open Scope Z_scope.

(** ** The C++ library functions the program calls *)

Module Cxx.

(** Exceptions thrown by [std::stoi] and [std::string::substr]. *)
Inductive exn : Type := invalid_argument | out_of_range.

(** A computation either returns, throws, or has not finished when the
    iteration budget given to a loop ran out. *)
Inductive result (A : Type) : Type :=
| Ok (a : A)
| Throw (e : exn)
| OutOfFuel.
Arguments Ok {A} a.
Arguments Throw {A} e.
Arguments OutOfFuel {A}.

Definition bind {A B} (r : result A) (k : A -> result B) : result B :=
  match r with
  | Ok a => k a
  | Throw e => Throw e
  | OutOfFuel => OutOfFuel
  end.

(** Characters that cannot be written inside a string literal. *)
Definition dq : ascii := "034"%char.
Definition nl : ascii := "010"%char.
Definition q : string := String dq EmptyString.
Definition endl : string := String nl EmptyString.

(** [size_t]: 64 bits, unsigned, wrapping. *)
Definition npos : Z := 18446744073709551615.
Definition size_wrap (z : Z) : Z := z mod 18446744073709551616.

(** [int]: 32 bits, two's complement.  An [int] addition that overflows is
    taken to wrap; C++ leaves it undefined, and every statement below that
    involves [nextId] keeps below [INT_MAX]. *)
Definition INT_MIN : Z := -2147483648.
Definition INT_MAX : Z := 2147483647.
Definition int_wrap (z : Z) : Z := (z + 2147483648) mod 4294967296 - 2147483648.

Definition size (s : string) : Z := Z.of_nat (String.length s).

Fixpoint starts_with (pat s : string) {struct s} : bool :=
  match pat with
  | EmptyString => true
  | String a pat' =>
      match s with
      | EmptyString => false
      | String b s' => Ascii.eqb a b && starts_with pat' s'
      end
  end.

Fixpoint drop (n : nat) (s : string) : string :=
  match n with
  | O => s
  | S n' => match s with EmptyString => EmptyString | String _ s' => drop n' s' end
  end.

(** Offset of the first occurrence of [pat] in [s]. *)
Fixpoint find0 (pat s : string) : option nat :=
  if starts_with pat s then Some O
  else match s with
       | EmptyString => None
       | String _ s' => option_map S (find0 pat s')
       end.

(** [s.find(pat, pos)]: the first index at or after [pos] where [pat]
    occurs, [npos] when there is none or [pos] is past the end. *)
Definition find (s pat : string) (pos : Z) : Z :=
  if size s <? pos then npos
  else match find0 pat (drop (Z.to_nat pos) s) with
       | Some i => pos + Z.of_nat i
       | None => npos
       end.

(** [s.substr(pos, n)]: throws when [pos] is past the end, otherwise the
    [min(n, size - pos)] characters from [pos]. *)
Definition substr (s : string) (pos n : Z) : result string :=
  if size s <? pos then Throw out_of_range
  else Ok (substring (Z.to_nat pos) (Z.to_nat (Z.min n (size s - pos))) s).

(** [isspace] in the C locale. *)
Definition isspace (c : ascii) : bool :=
  let n := nat_of_ascii c in
  (Nat.eqb n 32 || (Nat.leb 9 n && Nat.leb n 13))%bool.

Definition digit_of (c : ascii) : option Z :=
  let n := nat_of_ascii c in
  if (Nat.leb 48 n && Nat.leb n 57)%bool then Some (Z.of_nat n - 48) else None.

Fixpoint skip_space (s : string) : string :=
  match s with
  | String c s' => if isspace c then skip_space s' else s
  | EmptyString => s
  end.

(** The digits at the front of [s], accumulated in base 10; [None] when
    [s] does not start with a digit. *)
Fixpoint read_digits (acc : option Z) (s : string) : option Z :=
  match s with
  | String c s' =>
      match digit_of c with
      | Some d => read_digits (Some (10 * match acc with Some a => a | None => 0 end + d)) s'
      | None => acc
      end
  | EmptyString => acc
  end.

(** [std::stoi(s)]: leading white space, an optional sign, decimal digits;
    [invalid_argument] without a digit, [out_of_range] outside [int]. *)
Definition stoi (s : string) : result Z :=
  let s1 := skip_space s in
  let '(neg, s2) :=
    match s1 with
    | String "-"%char r => (true, r)
    | String "+"%char r => (false, r)
    | _ => (false, s1)
    end in
  match read_digits None s2 with
  | None => Throw invalid_argument
  | Some n =>
      let v := if neg then - n else n in
      if ((INT_MIN <=? v) && (v <=? INT_MAX))%bool then Ok v else Throw out_of_range
  end.

Definition digit_char (d : Z) : ascii := ascii_of_nat (48 + Z.to_nat d).

(** Decimal digits of a non-negative number, most significant first. *)
Fixpoint decimal_digits (fuel : nat) (n : Z) (acc : string) : string :=
  let acc' := String (digit_char (n mod 10)) acc in
  match fuel with
  | O => acc'
  | S f => if n / 10 =? 0 then acc' else decimal_digits f (n / 10) acc'
  end.

(** [std::to_string(int)] (an [int] has at most ten digits). *)
Definition to_string (z : Z) : string :=
  if z <? 0 then "-" ++ decimal_digits 10 (- z) "" else decimal_digits 10 z "".

Fixpoint ends_with_nl (s : string) : bool :=
  match s with
  | EmptyString => false
  | String c EmptyString => Ascii.eqb c nl
  | String _ s' => ends_with_nl s'
  end.

(** The [getline] loop that appends every line and a newline to
    [content], over a file that holds [s]: every line comes back
    terminated, so a missing final newline is added and an empty file
    stays empty. *)
Definition read_lines (s : string) : string :=
  match s with
  | EmptyString => EmptyString
  | _ => if ends_with_nl s then s else s ++ endl
  end.

End Cxx.

Import Cxx.

Notation "x <- r ;; k" := (Cxx.bind r (fun x => k))
  (at level 61, r at next level, right associativity).

(** ** The environment of one process run *)

(** The persistence file ([None]: it does not exist), everything written to
    standard output so far, and the text [getCurrentTime] returns. *)
Record World : Type := mkWorld {
  file : option string;
  cout : string;
  clock : string
}.

Definition print (s : string) (w : World) : World :=
  mkWorld (file w) (cout w ++ s) (clock w).

Definition write_file (s : string) (w : World) : World :=
  mkWorld (Some s) (cout w) (clock w).

(** ** class TaskTracker *)

Module TaskTracker.

Record t : Type := mk {
  id : Z;
  isDeleted : bool;
  desc : string;
  status : string;
  createdAt : string;
  updatedAt : string
}.

(** [TaskTracker(int i)] *)
Definition new1 (i : Z) : t := mk i false "" "" "" "".

(** [TaskTracker(int i, string d, string s, string c, string u)] *)
Definition new5 (i : Z) (d s c u : string) : t := mk i false d s c u.

Definition getId (x : t) : Z := id x.

Definition addTask (d s c u : string) (x : t) : t :=
  mk (id x) false d s c u.

Definition updateTask (d s u : string) (x : t) : t :=
  mk (id x) (isDeleted x) d s (createdAt x) u.

Definition updateDescription (d u : string) (x : t) : t :=
  mk (id x) (isDeleted x) d (status x) (createdAt x) u.

Definition updateStatus (s u : string) (x : t) : t :=
  mk (id x) (isDeleted x) (desc x) s (createdAt x) u.

Definition deleteTask (x : t) : t :=
  mk (id x) true (desc x) (status x) (createdAt x) (updatedAt x).

Definition isTaskDeleted (x : t) : bool := isDeleted x.

(** The line [display] writes for a record that is not deleted. *)
Definition display_line (x : t) : string :=
  "ID: " ++ to_string (id x) ++ " | " ++ desc x ++ " | Status: " ++ status x
  ++ " | Created: " ++ createdAt x ++ " | Updated: " ++ updatedAt x ++ endl.

Definition display (x : t) (w : World) : World :=
  if isDeleted x then w else print (display_line x) w.

Definition toJson (x : t) : string :=
  if isDeleted x then ""
  else "  {" ++ endl ++ "    " ++ q ++ "id" ++ q ++ ": " ++ to_string (id x) ++ "," ++ endl
    ++ "    " ++ q ++ "description" ++ q ++ ": " ++ q ++ desc x ++ q ++ "," ++ endl
    ++ "    " ++ q ++ "status" ++ q ++ ": " ++ q ++ status x ++ q ++ "," ++ endl
    ++ "    " ++ q ++ "createdAt" ++ q ++ ": " ++ q ++ createdAt x ++ q ++ "," ++ endl
    ++ "    " ++ q ++ "updatedAt" ++ q ++ ": " ++ q ++ updatedAt x ++ q ++ endl ++ "  }".

End TaskTracker.

(** ** class TaskManager *)

Module TaskManager.

Record t : Type := mk {
  tasks : list TaskTracker.t;
  nextId : Z
}.

(** The members' initialisers: no tasks, [nextId = 1]. *)
Definition init : t := mk [] 1.

Definition getCurrentTime (w : World) : string := clock w.

(** The search strings of [loadTasks]. *)
Definition key_id : string := Eval cbv in (q ++ "id" ++ q ++ ":").
Definition key_description : string := Eval cbv in (q ++ "description" ++ q ++ ": " ++ q).
Definition key_status : string := Eval cbv in (q ++ "status" ++ q ++ ": " ++ q).
Definition key_createdAt : string := Eval cbv in (q ++ "createdAt" ++ q ++ ": " ++ q).
Definition key_updatedAt : string := Eval cbv in (q ++ "updatedAt" ++ q ++ ": " ++ q).

(** A quoted field: the text from [start] up to the next double quote,
    as [substr] cuts it, together with the index [find] gave for that
    quote. *)
Definition quoted (content : string) (start : Z) : result (string * Z) :=
  let stop := find content q start in
  s <- substr content start (size_wrap (stop - start)) ;;
  Ok (s, stop).

(** The [while] loop of [loadTasks]; [fuel] bounds its iterations. *)
Fixpoint loadLoop (fuel : nat) (content : string) (pos : Z) (m : t) : result t :=
  match fuel with
  | O => OutOfFuel
  | S fuel' =>
      let pos := find content key_id pos in
      if pos =? npos then Ok m
      else
        let idStart := size_wrap (find content ":" pos + 1) in
        let idEnd := find content "," idStart in
        idText <- substr content idStart (size_wrap (idEnd - idStart)) ;;
        id <- stoi idText ;;
        let descStart := size_wrap (find content key_description pos + 16) in
        d <- quoted content descStart ;;
        let statusStart := size_wrap (find content key_status pos + 11) in
        s <- quoted content statusStart ;;
        let createdStart := size_wrap (find content key_createdAt pos + 14) in
        c <- quoted content createdStart ;;
        let updatedStart := size_wrap (find content key_updatedAt pos + 14) in
        u <- quoted content updatedStart ;;
        loadLoop fuel' content (snd u)
          (mk (tasks m ++ [TaskTracker.new5 id (fst d) (fst s) (fst c) (fst u)])
              (Z.max (nextId m) (int_wrap (id + 1))))
  end.

(** [loadTasks] on the text read from the file.  What an iteration does
    depends only on the index at which it finds [key_id], so a loop that
    ends finds it at a different index each time and makes at most
    [length content] iterations before the last one
    ([loadContent_budget] below). *)
Definition loadContent (content : string) (m : t) : result t :=
  if ((content =? "")%string || negb (find content "[]" 0 =? npos))%bool then Ok m
  else loadLoop (S (String.length content)) content 0 m.

Definition loadTasks (w : World) (m : t) : result t :=
  match file w with
  | None => Ok m
  | Some text => loadContent (read_lines text) m
  end.

(** The body of the [for] loop of [saveTasks]. *)
Fixpoint saveLoop (ts : list TaskTracker.t) (first : bool) : string :=
  match ts with
  | [] => ""
  | x :: rest =>
      if negb (TaskTracker.isTaskDeleted x)
      then (if negb first then "," ++ endl else "") ++ TaskTracker.toJson x ++ saveLoop rest false
      else saveLoop rest first
  end.

Definition serialize (ts : list TaskTracker.t) : string :=
  "[" ++ endl ++ saveLoop ts true ++ endl ++ "]".

Definition saveTasks (m : t) (w : World) : World :=
  write_file (serialize (tasks m)) w.

(** [TaskManager()] *)
Definition construct (w : World) : result t := loadTasks w init.

Definition addTask (description : string) (m : t) (w : World) : t * World :=
  let currentTime := getCurrentTime w in
  let newTask := TaskTracker.new1 (nextId m) in
  let m := mk (tasks m) (int_wrap (nextId m + 1)) in
  let newTask := TaskTracker.addTask description "todo" currentTime currentTime newTask in
  let m := mk (tasks m ++ [newTask]) (nextId m) in
  let w := saveTasks m w in
  (m, print ("Task added successfully (ID: " ++ to_string (TaskTracker.getId newTask) ++ ")" ++ endl) w).

(** The loop shared by [updateTask], [deleteTask], [markInProgress] and
    [markDone]: apply [f] to the first record that has the id and is not
    deleted; [None] when the loop runs to its end. *)
Fixpoint onFirstLive (id : Z) (f : TaskTracker.t -> TaskTracker.t)
    (ts : list TaskTracker.t) : option (list TaskTracker.t) :=
  match ts with
  | [] => None
  | x :: rest =>
      if ((TaskTracker.getId x =? id) && negb (TaskTracker.isTaskDeleted x))%bool
      then Some (f x :: rest)
      else option_map (cons x) (onFirstLive id f rest)
  end.

Definition notFound (id : Z) : string :=
  "Task with ID " ++ to_string id ++ " not found" ++ endl.

Definition mutate (id : Z) (f : TaskTracker.t -> TaskTracker.t) (done : string)
    (m : t) (w : World) : t * World :=
  match onFirstLive id f (tasks m) with
  | Some ts =>
      let m := mk ts (nextId m) in
      (m, print (done ++ endl) (saveTasks m w))
  | None => (m, print (notFound id) w)
  end.

Definition updateTask (id : Z) (description : string) (m : t) (w : World) : t * World :=
  mutate id (TaskTracker.updateDescription description (getCurrentTime w))
    "Task updated successfully" m w.

Definition deleteTask (id : Z) (m : t) (w : World) : t * World :=
  mutate id TaskTracker.deleteTask "Task deleted successfully" m w.

Definition markInProgress (id : Z) (m : t) (w : World) : t * World :=
  mutate id (TaskTracker.updateStatus "in-progress" (getCurrentTime w))
    "Task marked as in progress" m w.

Definition markDone (id : Z) (m : t) (w : World) : t * World :=
  mutate id (TaskTracker.updateStatus "done" (getCurrentTime w))
    "Task marked as done" m w.

(** The loop of the two listing functions: show the records [keep]
    selects, and tell whether there was one. *)
Fixpoint showLoop (keep : TaskTracker.t -> bool) (ts : list TaskTracker.t)
    (found : bool) (w : World) : bool * World :=
  match ts with
  | [] => (found, w)
  | x :: rest =>
      if keep x then showLoop keep rest true (TaskTracker.display x w)
      else showLoop keep rest found w
  end.

Definition listAllTasks (m : t) (w : World) : World :=
  let '(found, w) :=
    showLoop (fun x => negb (TaskTracker.isTaskDeleted x)) (tasks m) false w in
  if negb found then print ("No tasks found" ++ endl) w else w.

Definition listTasksByStatus (status : string) (m : t) (w : World) : World :=
  let '(found, w) :=
    showLoop (fun x => (negb (TaskTracker.isTaskDeleted x)
                        && (TaskTracker.status x =? status)%string)%bool)
      (tasks m) false w in
  if negb found then print ("No tasks found with status: " ++ status ++ endl) w else w.

End TaskManager.

(** ** main *)

Definition printUsage (w : World) : World :=
  print ("Usage:" ++ endl
    ++ "  task-cli add " ++ q ++ "description" ++ q ++ "        - Add a new task" ++ endl
    ++ "  task-cli update <id> " ++ q ++ "description" ++ q ++ " - Update task description" ++ endl
    ++ "  task-cli delete <id>               - Delete a task" ++ endl
    ++ "  task-cli mark-in-progress <id>     - Mark task as in progress" ++ endl
    ++ "  task-cli mark-done <id>            - Mark task as done" ++ endl
    ++ "  task-cli list                      - List all tasks" ++ endl
    ++ "  task-cli list done                 - List completed tasks" ++ endl
    ++ "  task-cli list todo                 - List todo tasks" ++ endl
    ++ "  task-cli list in-progress          - List in-progress tasks" ++ endl) w.

(** How the process ends: [return n] from [main], an exception of [exn]
    that nobody catches, or, for [Hang], a constructor whose loop does not
    end by itself (the program then pushes records until an allocation
    fails, which the model does not follow). *)
Inductive outcome : Type :=
| Exit (code : Z)
| Terminate (e : exn)
| Hang.

Definition argvAt (argv : list string) (i : nat) : string := nth i argv "".

(** A verb that takes an id: [argc] is checked against [need], then
    [stoi(argv[2])] and the store operation run. *)
Definition withId (argv : list string) (need : nat) (missing : string)
    (op : Z -> TaskManager.t -> World -> TaskManager.t * World)
    (manager : TaskManager.t) (w : World) : outcome * World :=
  if (List.length argv <? need)%nat then (Exit 1, print (missing ++ endl) w)
  else match stoi (argvAt argv 2) with
       | Ok id => (Exit 0, snd (op id manager w))
       | Throw e => (Terminate e, w)
       | OutOfFuel => (Hang, w)
       end.

Definition main (argv : list string) (w : World) : outcome * World :=
  match TaskManager.construct w with
  | Throw e => (Terminate e, w)
  | OutOfFuel => (Hang, w)
  | Ok manager =>
      let argc := List.length argv in
      if (argc <? 2)%nat then (Exit 1, printUsage w)
      else
        let command := argvAt argv 1 in
        if (command =? "add")%string then
          if (argc <? 3)%nat
          then (Exit 1, print ("Error: Please provide a task description" ++ endl) w)
          else (Exit 0, snd (TaskManager.addTask (argvAt argv 2) manager w))
        else if (command =? "update")%string then
          withId argv 4 "Error: Please provide task ID and new description"
            (fun id => TaskManager.updateTask id (argvAt argv 3)) manager w
        else if (command =? "delete")%string then
          withId argv 3 "Error: Please provide task ID" TaskManager.deleteTask manager w
        else if (command =? "mark-in-progress")%string then
          withId argv 3 "Error: Please provide task ID" TaskManager.markInProgress manager w
        else if (command =? "mark-done")%string then
          withId argv 3 "Error: Please provide task ID" TaskManager.markDone manager w
        else if (command =? "list")%string then
          if (argc =? 2)%nat then (Exit 0, TaskManager.listAllTasks manager w)
          else if (argc =? 3)%nat then
            let status := argvAt argv 2 in
            if (status =? "in-progress")%string
            then (Exit 0, TaskManager.listTasksByStatus "in-progress" manager w)
            else (Exit 0, TaskManager.listTasksByStatus status manager w)
          else (Exit 0, w)
        else
          (Exit 1, printUsage (print ("Error: Unknown command '" ++ command ++ "'" ++ endl) w))
  end.

(** ** Vocabulary of the statements *)

(** Some record of [ts] carries [id] and is not deleted. *)
Definition hasLive (id : Z) (ts : list TaskTracker.t) : Prop :=
  exists x, In x ts /\ TaskTracker.getId x = id /\ TaskTracker.isDeleted x = false.

Definition isLive (x : TaskTracker.t) : bool := negb (TaskTracker.isDeleted x).

(** The records a listing shows, in the order of the vector. *)
Definition liveRecords (ts : list TaskTracker.t) : list TaskTracker.t :=
  filter isLive ts.

(** What is to be read on standard output after a listing of the records
    [l]: one line for each, in their order, with the five fields in the
    layout of lines 96-97 of the source. *)
Definition shown (l : list TaskTracker.t) : string :=
  fold_right
    (fun x rest =>
       ("ID: " ++ to_string (TaskTracker.id x) ++ " | " ++ TaskTracker.desc x
        ++ " | Status: " ++ TaskTracker.status x
        ++ " | Created: " ++ TaskTracker.createdAt x
        ++ " | Updated: " ++ TaskTracker.updatedAt x ++ endl) ++ rest)
    "" l.

(** [c] does not occur in [s]. *)
Fixpoint absent (c : ascii) (s : string) : bool :=
  match s with
  | EmptyString => true
  | String b s' => (negb (Ascii.eqb b c) && absent c s')%bool
  end.

(** [s] does not contain an opening bracket followed by a closing one. *)
Definition noBrackets (s : string) : bool :=
  match find0 "[]" s with
  | None => true
  | Some _ => false
  end.

(** Text that the loader reads back as it was written: no double quote,
    which would end the field early, and no pair of brackets, which would
    make the loader return before it parses. *)
Definition safeText (s : string) : bool := (absent dq s && noBrackets s)%bool.

(** A record with an [int] id and four safe text fields. *)
Definition safeRecord (x : TaskTracker.t) : bool :=
  ((INT_MIN <=? TaskTracker.id x) && (TaskTracker.id x <=? INT_MAX)
   && safeText (TaskTracker.desc x) && safeText (TaskTracker.status x)
   && safeText (TaskTracker.createdAt x) && safeText (TaskTracker.updatedAt x))%bool.

(** [nextId] after the loader has pushed the records [l]. *)
Definition nextIdAfter (l : list TaskTracker.t) (n : Z) : Z :=
  fold_left (fun n x => Z.max n (int_wrap (TaskTracker.id x + 1))) l n.

(** Decimal digits. *)
Definition isDigit (c : ascii) : bool :=
  match digit_of c with Some _ => true | None => false end.

Fixpoint allDigits (s : string) : bool :=
  match s with
  | EmptyString => true
  | String c s' => (isDigit c && allDigits s')%bool
  end.

(** A text given as a sequence of pieces. *)
Definition cat (l : list string) : string := fold_right append "" l.

(** The index at which the [k]-th piece of [l] starts. *)
Definition P (l : list string) (k : nat) : Z := size (cat (firstn k l)).

(** [pat] starts with [c]. *)
Definition firstIs (c : ascii) (pat : string) : bool :=
  match pat with
  | String a _ => Ascii.eqb a c
  | EmptyString => false
  end.

(** The text of a live record between the opening brace's indentation and
    the quote that closes [updatedAt], cut where the loader looks. *)
Definition pieces (x : TaskTracker.t) : list string :=
  [ q ++ "id" ++ q; ":"; " " ++ to_string (TaskTracker.id x); "," ++ endl ++ "    ";
    TaskManager.key_description; TaskTracker.desc x; q ++ "," ++ endl ++ "    ";
    TaskManager.key_status; TaskTracker.status x; q ++ "," ++ endl ++ "    ";
    TaskManager.key_createdAt; TaskTracker.createdAt x; q ++ "," ++ endl ++ "    ";
    TaskManager.key_updatedAt; TaskTracker.updatedAt x ].

(** What [loadTasks] appends for a record it has parsed. *)
Definition push (x : TaskTracker.t) (m : TaskManager.t) : TaskManager.t :=
  TaskManager.mk
    (TaskManager.tasks m ++
       [TaskTracker.new5 (TaskTracker.id x) (TaskTracker.desc x) (TaskTracker.status x)
          (TaskTracker.createdAt x) (TaskTracker.updatedAt x)])
    (Z.max (TaskManager.nextId m) (int_wrap (TaskTracker.id x + 1))).

(** Live and of the given status. *)
Definition hasStatus (status : string) (x : TaskTracker.t) : bool :=
  (isLive x && (TaskTracker.status x =? status)%string)%bool.

(** What stands between the position the loop starts an iteration at and
    the id key of the next record: the opening of the list before the
    first record, the end of the previous record before the others. *)
Definition headOf (first : bool) : string :=
  if first then "[" ++ endl else q ++ endl ++ "  }".

Definition gapOf (first : bool) : string :=
  headOf first ++ (if first then "" else "," ++ endl) ++ "  {" ++ endl ++ "    ".

Definition liveAndSafe (x : TaskTracker.t) : Prop :=
  TaskTracker.isDeleted x = false /\ safeRecord x = true.

(** A call of one of the public operations of the store. *)
Inductive request : Type :=
| Add (description : string)
| Update (id : Z) (description : string)
| Delete (id : Z)
| MarkInProgress (id : Z)
| MarkDone (id : Z)
| ListAll
| ListByStatus (status : string).

Definition serve (r : request) (st : TaskManager.t * World) : TaskManager.t * World :=
  match r with
  | Add d => TaskManager.addTask d (fst st) (snd st)
  | Update i d => TaskManager.updateTask i d (fst st) (snd st)
  | Delete i => TaskManager.deleteTask i (fst st) (snd st)
  | MarkInProgress i => TaskManager.markInProgress i (fst st) (snd st)
  | MarkDone i => TaskManager.markDone i (fst st) (snd st)
  | ListAll => (fst st, TaskManager.listAllTasks (fst st) (snd st))
  | ListByStatus s => (fst st, TaskManager.listTasksByStatus s (fst st) (snd st))
  end.

(** The calls [rs], one after the other, in one process. *)
Definition serveAll (rs : list request) (st : TaskManager.t * World)
    : TaskManager.t * World :=
  fold_left (fun st r => serve r st) rs st.

(** The ids [addTask] gives to the descriptions [ds], added in turn. *)
Fixpoint addAll (ds : list string) (m : TaskManager.t) (w : World)
    : list Z * (TaskManager.t * World) :=
  match ds with
  | [] => ([], (m, w))
  | d :: ds' =>
      let st := TaskManager.addTask d m w in
      let rest := addAll ds' (fst st) (snd st) in
      (last (map TaskTracker.getId (TaskManager.tasks (fst st))) 0 :: fst rest, snd rest)
  end.

(** One iteration of the loop of [loadTasks] after the id key was found at
    [pos]: the record it pushes and the position it leaves in [pos]. *)
Definition parseAt (content : string) (pos : Z) : result (TaskTracker.t * Z) :=
  let idStart := size_wrap (find content ":" pos + 1) in
  let idEnd := find content "," idStart in
  idText <- substr content idStart (size_wrap (idEnd - idStart)) ;;
  id <- stoi idText ;;
  d <- TaskManager.quoted content (size_wrap (find content TaskManager.key_description pos + 16)) ;;
  s <- TaskManager.quoted content (size_wrap (find content TaskManager.key_status pos + 11)) ;;
  c <- TaskManager.quoted content (size_wrap (find content TaskManager.key_createdAt pos + 14)) ;;
  u <- TaskManager.quoted content (size_wrap (find content TaskManager.key_updatedAt pos + 14)) ;;
  Ok (TaskTracker.new5 id (fst d) (fst s) (fst c) (fst u), snd u).

(** Where the loop stands after one more iteration, if it makes one. *)
Definition hop (content : string) (pos : Z) : option Z :=
  let p := find content TaskManager.key_id pos in
  if p =? npos then None
  else match parseAt content p with
       | Ok r => Some (snd r)
       | _ => None
       end.

(** [n] steps of a partial function. *)
Fixpoint iterate (f : Z -> option Z) (n : nat) (x : Z) : option Z :=
  match n with
  | O => Some x
  | S n' => match f x with
            | Some y => iterate f n' y
            | None => None
            end
  end.

(** Only white space. *)
Fixpoint allSpaces (s : string) : bool :=
  match s with
  | EmptyString => true
  | String c s' => (isspace c && allSpaces s')%bool
  end.

(** [s] does not start with a decimal digit. *)
Definition noLeadingDigit (s : string) : bool :=
  match s with
  | String c _ => negb (isDigit c)
  | EmptyString => true
  end.

(** What one record may become while the process runs: id and creation
    time stay, and a deleted record stays deleted. *)
Definition sameRecordLater (y y' : TaskTracker.t) : Prop :=
  TaskTracker.id y' = TaskTracker.id y /\
  TaskTracker.createdAt y' = TaskTracker.createdAt y /\
  (TaskTracker.isDeleted y = true -> TaskTracker.isDeleted y' = true).

(** The vector [ts'] continues [ts]: the records of [ts] are still there,
    position by position, and new records stand after them. *)
Definition continues (ts ts' : list TaskTracker.t) : Prop :=
  exists old new, ts' = (old ++ new)%list /\ Forall2 sameRecordLater ts old.

(** Ids are pairwise distinct and below [nextId]. *)
Definition idsFresh (m : TaskManager.t) : Prop :=
  NoDup (map TaskTracker.getId (TaskManager.tasks m)) /\
  Forall (fun x => TaskTracker.getId x < TaskManager.nextId m) (TaskManager.tasks m).

(** The file holds what [saveTasks] writes for the vector in memory. *)
Definition inSync (st : TaskManager.t * World) : Prop :=
  file (snd st) = Some (TaskManager.serialize (TaskManager.tasks (fst st))).

(** What the loader guarantees of a record it pushed, given the [nextId]
    it ended with. *)
Definition loadedRecord (next : Z) (x : TaskTracker.t) : Prop :=
  TaskTracker.isDeleted x = false /\
  INT_MIN <= TaskTracker.id x <= INT_MAX /\
  (TaskTracker.id x < INT_MAX -> TaskTracker.id x < next).

(** ** Strings *)

Lemma sapp_nil_r (s : string) : s ++ "" = s.
Proof. induction s as [|c s IH]; simpl; [reflexivity | now rewrite IH]. Qed.

Lemma sapp_assoc (a b c : string) : (a ++ b) ++ c = a ++ (b ++ c).
Proof. induction a as [|x a IH]; simpl; [reflexivity | now rewrite IH]. Qed.

Lemma sapp_inv_head (s a b : string) : s ++ a = s ++ b -> a = b.
Proof.
  induction s as [|c s IH]; simpl; intros H; [exact H|].
  injection H as H. now apply IH.
Qed.

Lemma slength_app (a b : string) :
  String.length (a ++ b) = (String.length a + String.length b)%nat.
Proof. induction a as [|x a IH]; simpl; [reflexivity | now rewrite IH]. Qed.

Lemma print_print (a b : string) (w : World) :
  print b (print a w) = print (a ++ b) w.
Proof. unfold print; simpl. now rewrite sapp_assoc. Qed.

Lemma print_nil (w : World) : print "" w = w.
Proof. destruct w; unfold print; simpl. now rewrite sapp_nil_r. Qed.

(** ** The lookup loop of the mutating operations *)

Section Lookup.

Variable id : Z.
Variable f : TaskTracker.t -> TaskTracker.t.

(** The loop returns without a hit exactly on the vectors that hold no
    live record with the id; on a hit it has rewritten the first such
    record and nothing else. *)
Lemma onFirstLive_spec (ts : list TaskTracker.t) :
  match TaskManager.onFirstLive id f ts with
  | None => ~ hasLive id ts
  | Some ts' =>
      exists l1 x l2,
        ts = (l1 ++ x :: l2)%list /\ ~ hasLive id l1 /\
        TaskTracker.getId x = id /\ TaskTracker.isDeleted x = false /\
        ts' = (l1 ++ f x :: l2)%list
  end.
Proof.
  induction ts as [|y ts IH]; simpl.
  - intros (x & [] & _).
  - unfold TaskTracker.isTaskDeleted.
    destruct (Z.eqb_spec (TaskTracker.getId y) id) as [Eid|Eid];
      destruct (TaskTracker.isDeleted y) eqn:Edel; simpl.
    2:{ exists (@nil TaskTracker.t), y, ts. repeat split; auto. intros (x & [] & _). }
    all: destruct (TaskManager.onFirstLive id f ts) as [ts'|]; simpl.
    all: try (destruct IH as (l1 & x & l2 & -> & Hno & Hid & Hlive & ->);
              exists (y :: l1), x, l2; repeat split; auto;
              intros (z & [<-|Hz] & Hzid & Hzl);
              [ congruence | apply Hno; exists z; auto ]).
    all: intros (z & [<-|Hz] & Hzid & Hzl);
      [ congruence | apply IH; exists z; auto ].
Qed.

(** Position by position, a hit leaves a record alone or applies [f]. *)
Lemma onFirstLive_pointwise (ts ts' : list TaskTracker.t) :
  TaskManager.onFirstLive id f ts = Some ts' ->
  Forall2 (fun x x' => x' = x \/ (x' = f x /\ TaskTracker.getId x = id
                                   /\ TaskTracker.isDeleted x = false)) ts ts'.
Proof.
  intros H. pose proof (onFirstLive_spec ts) as S. rewrite H in S.
  destruct S as (l1 & x & l2 & -> & _ & Hid & Hl & ->).
  assert (Same : forall l : list TaskTracker.t,
             Forall2 (fun x x' => x' = x \/ (x' = f x /\ TaskTracker.getId x = id
                                   /\ TaskTracker.isDeleted x = false)) l l)
    by (induction l; constructor; auto).
  apply Forall2_app; [|constructor; [right; auto|]]; apply Same.
Qed.

End Lookup.

(** When some live record has the id, the loop stops at the first of them,
    whatever it is asked to do there. *)
Lemma onFirstLive_hit (id : Z) (ts : list TaskTracker.t) :
  hasLive id ts ->
  exists l1 x l2,
    ts = (l1 ++ x :: l2)%list /\ ~ hasLive id l1 /\
    TaskTracker.getId x = id /\ TaskTracker.isDeleted x = false /\
    forall f, TaskManager.onFirstLive id f ts = Some (l1 ++ f x :: l2)%list.
Proof.
  induction ts as [|y ts IH]; intros Hlive.
  - destruct Hlive as (x & [] & _).
  - cbn [TaskManager.onFirstLive]. unfold TaskTracker.isTaskDeleted.
    destruct ((TaskTracker.getId y =? id) && negb (TaskTracker.isDeleted y))%bool eqn:Hy.
    + apply andb_true_iff in Hy. destruct Hy as [Hid Hl].
      apply Z.eqb_eq in Hid. apply negb_true_iff in Hl.
      exists [], y, ts. repeat split; auto. intros (x & [] & _).
    + assert (Hts : hasLive id ts).
      { destruct Hlive as (x & [<-|Hin] & Hxid & Hxl); [|exists x; auto].
        rewrite Hxl in Hy. apply Z.eqb_eq in Hxid. rewrite Hxid in Hy. discriminate. }
      destruct (IH Hts) as (l1 & x & l2 & -> & Hno & Hxid & Hxl & Hf).
      exists (y :: l1), x, l2. repeat split; auto.
      * intros (z & [<-|Hz] & Hzid & Hzl).
        -- rewrite Hzl in Hy. apply Z.eqb_eq in Hzid. rewrite Hzid in Hy. discriminate.
        -- apply Hno. exists z. auto.
      * intros f. rewrite Hf. reflexivity.
Qed.

(** A mutating operation either misses, and then only the message is
    printed, or hits, and then the rewritten vector is saved before the
    confirmation is printed. *)
Lemma mutate_cases (id : Z) (f : TaskTracker.t -> TaskTracker.t) (done : string)
    (m : TaskManager.t) (w : World) :
  (~ hasLive id (TaskManager.tasks m) /\
   TaskManager.mutate id f done m w = (m, print (TaskManager.notFound id) w))
  \/
  (exists l1 x l2,
     TaskManager.tasks m = (l1 ++ x :: l2)%list /\ ~ hasLive id l1 /\
     TaskTracker.getId x = id /\ TaskTracker.isDeleted x = false /\
     TaskManager.mutate id f done m w =
       (TaskManager.mk (l1 ++ f x :: l2)%list (TaskManager.nextId m),
        print (done ++ endl)
          (write_file (TaskManager.serialize (l1 ++ f x :: l2)%list) w))).
Proof.
  unfold TaskManager.mutate.
  pose proof (onFirstLive_spec id f (TaskManager.tasks m)) as S.
  destruct (TaskManager.onFirstLive id f (TaskManager.tasks m)) as [ts'|].
  - right. destruct S as (l1 & x & l2 & E & Hno & Hid & Hl & ->).
    exists l1, x, l2. repeat split; auto.
  - left. split; auto.
Qed.

Lemma done_is_not_notFound (id : Z) :
  "Task updated successfully" ++ endl <> TaskManager.notFound id /\
  "Task deleted successfully" ++ endl <> TaskManager.notFound id /\
  "Task marked as in progress" ++ endl <> TaskManager.notFound id /\
  "Task marked as done" ++ endl <> TaskManager.notFound id.
Proof. unfold TaskManager.notFound; simpl; repeat split; discriminate. Qed.

(** The message tells a miss from a hit. *)
Lemma mutate_reports_notFound (id : Z) (f : TaskTracker.t -> TaskTracker.t)
    (done : string) (m : TaskManager.t) (w : World) :
  done ++ endl <> TaskManager.notFound id ->
  (cout (snd (TaskManager.mutate id f done m w)) = cout w ++ TaskManager.notFound id
   <-> ~ hasLive id (TaskManager.tasks m)).
Proof.
  intros Hmsg.
  destruct (mutate_cases id f done m w) as [[Hno ->] | (l1 & x & l2 & E & _ & Hid & Hl & ->)];
    simpl; split; auto.
  - intros H. apply sapp_inv_head in H. contradiction.
  - intros Hno. exfalso. apply Hno. rewrite E. exists x. split; [apply in_elt | auto].
Qed.

Lemma same_identity (l : list TaskTracker.t) :
  Forall2 (fun y y' => TaskTracker.id y' = TaskTracker.id y /\
                       TaskTracker.createdAt y' = TaskTracker.createdAt y) l l.
Proof. induction l; constructor; auto. Qed.

(** An operation whose [f] keeps id and creation time keeps them in every
    record of the vector, and keeps the vector's length. *)
Lemma mutate_keeps_identity (id : Z) (f : TaskTracker.t -> TaskTracker.t) (done : string)
    (m : TaskManager.t) (w : World) :
  (forall y, TaskTracker.id (f y) = TaskTracker.id y /\
             TaskTracker.createdAt (f y) = TaskTracker.createdAt y) ->
  Forall2 (fun y y' => TaskTracker.id y' = TaskTracker.id y /\
                       TaskTracker.createdAt y' = TaskTracker.createdAt y)
    (TaskManager.tasks m) (TaskManager.tasks (fst (TaskManager.mutate id f done m w))).
Proof.
  intros Hf.
  destruct (mutate_cases id f done m w) as [[_ ->] | (l1 & x & l2 & E & _ & _ & _ & ->)];
    cbn [fst TaskManager.tasks]; [apply same_identity|].
  rewrite E. apply Forall2_app; [apply same_identity|].
  constructor; [apply Hf | apply same_identity].
Qed.

(** ** Claims about single records *)

(** C5: a mutation through [updateDescription] or [updateStatus] (the
    methods behind update, mark-in-progress and mark-done) stores the time
    it is given in [updatedAt] and keeps [createdAt] and [id]; an update of
    the description keeps the status as well.  In the store, when a live
    record has the id, [updateTask], [markInProgress] and [markDone] replace
    the first such record by the record written out below: its [updatedAt]
    is the current time (the clock of the run), its [createdAt] and [id] are
    what they were, and so is the status for update and the description for
    the two status changes; every other record stays as it is.  No
    operation of the store changes the [createdAt] or the [id] of a record
    that is in the vector: the vector after the operation starts with the
    same records, position by position, up to the fields the operation
    sets. *)
Theorem mutation_refreshes_updatedAt_only (x : TaskTracker.t) (text now : string)
    (id : Z) (m : TaskManager.t) (w : World) :
  (let x' := TaskTracker.updateDescription text now x in
   TaskTracker.updatedAt x' = now /\ TaskTracker.desc x' = text /\
   TaskTracker.createdAt x' = TaskTracker.createdAt x /\
   TaskTracker.id x' = TaskTracker.id x /\
   TaskTracker.status x' = TaskTracker.status x /\
   TaskTracker.isDeleted x' = TaskTracker.isDeleted x) /\
  (let x' := TaskTracker.updateStatus text now x in
   TaskTracker.updatedAt x' = now /\ TaskTracker.status x' = text /\
   TaskTracker.createdAt x' = TaskTracker.createdAt x /\
   TaskTracker.id x' = TaskTracker.id x /\
   TaskTracker.desc x' = TaskTracker.desc x /\
   TaskTracker.isDeleted x' = TaskTracker.isDeleted x) /\
  (hasLive id (TaskManager.tasks m) ->
   exists l1 y l2,
     TaskManager.tasks m = (l1 ++ y :: l2)%list /\ ~ hasLive id l1 /\
     TaskTracker.getId y = id /\ TaskTracker.isDeleted y = false /\
     TaskManager.tasks (fst (TaskManager.updateTask id text m w)) =
       (l1 ++ TaskTracker.mk (TaskTracker.id y) false text (TaskTracker.status y)
                (TaskTracker.createdAt y) (clock w) :: l2)%list /\
     TaskManager.tasks (fst (TaskManager.markInProgress id m w)) =
       (l1 ++ TaskTracker.mk (TaskTracker.id y) false (TaskTracker.desc y) "in-progress"
                (TaskTracker.createdAt y) (clock w) :: l2)%list /\
     TaskManager.tasks (fst (TaskManager.markDone id m w)) =
       (l1 ++ TaskTracker.mk (TaskTracker.id y) false (TaskTracker.desc y) "done"
                (TaskTracker.createdAt y) (clock w) :: l2)%list) /\
  Forall2 (fun y y' => y' = y \/
             y' = TaskTracker.updateDescription text (clock w) y)
    (TaskManager.tasks m) (TaskManager.tasks (fst (TaskManager.updateTask id text m w))) /\
  Forall2 (fun y y' => y' = y \/
             y' = TaskTracker.updateStatus "in-progress" (clock w) y)
    (TaskManager.tasks m) (TaskManager.tasks (fst (TaskManager.markInProgress id m w))) /\
  Forall2 (fun y y' => y' = y \/
             y' = TaskTracker.updateStatus "done" (clock w) y)
    (TaskManager.tasks m) (TaskManager.tasks (fst (TaskManager.markDone id m w))) /\
  (forall r, exists old new,
     TaskManager.tasks (fst (serve r (m, w))) = (old ++ new)%list /\
     Forall2 (fun y y' => TaskTracker.id y' = TaskTracker.id y /\
                          TaskTracker.createdAt y' = TaskTracker.createdAt y)
       (TaskManager.tasks m) old).
Proof.
  assert (G : forall f done,
             Forall2 (fun y y' => y' = y \/ y' = f y) (TaskManager.tasks m)
               (TaskManager.tasks (fst (TaskManager.mutate id f done m w)))).
  { intros f done. unfold TaskManager.mutate.
    destruct (TaskManager.onFirstLive id f (TaskManager.tasks m)) as [ts'|] eqn:E; simpl.
    - eapply Forall2_impl; [|apply (onFirstLive_pointwise _ _ _ _ E)].
      intros a b [->|[-> _]]; auto.
    - clear E. generalize (TaskManager.tasks m) as l.
      induction l; constructor; auto. }
  split; [repeat split|]. split; [repeat split|]. split; [|repeat split; try apply G].
  - intros Hlive.
    destruct (onFirstLive_hit id (TaskManager.tasks m) Hlive)
      as (l1 & y & l2 & E & Hno & Hid & Hl & Hf).
    exists l1, y, l2. repeat split; auto.
    all: unfold TaskManager.updateTask, TaskManager.markInProgress, TaskManager.markDone,
           TaskManager.mutate; rewrite Hf; cbn [fst TaskManager.tasks];
         unfold TaskTracker.updateDescription, TaskTracker.updateStatus,
           TaskManager.getCurrentTime; rewrite Hl; reflexivity.
  - intros [d | i d | i | i | i | | s]; cbn [serve fst snd].
    + exists (TaskManager.tasks m). eexists. split; [reflexivity | apply same_identity].
    + eexists. exists []. split; [now rewrite app_nil_r|].
      apply mutate_keeps_identity. intros y. split; reflexivity.
    + eexists. exists []. split; [now rewrite app_nil_r|].
      apply mutate_keeps_identity. intros y. split; reflexivity.
    + eexists. exists []. split; [now rewrite app_nil_r|].
      apply mutate_keeps_identity. intros y. split; reflexivity.
    + eexists. exists []. split; [now rewrite app_nil_r|].
      apply mutate_keeps_identity. intros y. split; reflexivity.
    + exists (TaskManager.tasks m), []. split; [now rewrite app_nil_r | apply same_identity].
    + exists (TaskManager.tasks m), []. split; [now rewrite app_nil_r | apply same_identity].
Qed.

Lemma mutation_refreshes_updatedAt_only_witness :
  let gone := TaskTracker.mk 1 true "Old" "done" "Mon Oct 26 09:00:00 2026"
                "Mon Oct 26 09:00:00 2026" in
  let milk := TaskTracker.mk 1 false "Buy milk" "todo" "Tue Oct 27 10:00:00 2026"
                "Tue Oct 27 10:00:00 2026" in
  let bob := TaskTracker.mk 2 false "Call Bob" "todo" "Wed Oct 28 11:00:00 2026"
               "Wed Oct 28 11:00:00 2026" in
  let m := TaskManager.mk [gone; milk; bob] 3 in
  let w := mkWorld None "" "Fri Oct 30 12:00:00 2026" in
  TaskManager.tasks (fst (TaskManager.updateTask 1 "Buy oat milk" m w)) =
    [gone;
     TaskTracker.mk 1 false "Buy oat milk" "todo" "Tue Oct 27 10:00:00 2026"
       "Fri Oct 30 12:00:00 2026";
     bob] /\
  TaskManager.tasks (fst (TaskManager.markInProgress 1 m w)) =
    [gone;
     TaskTracker.mk 1 false "Buy milk" "in-progress" "Tue Oct 27 10:00:00 2026"
       "Fri Oct 30 12:00:00 2026";
     bob] /\
  TaskManager.tasks (fst (TaskManager.markDone 1 m w)) =
    [gone;
     TaskTracker.mk 1 false "Buy milk" "done" "Tue Oct 27 10:00:00 2026"
       "Fri Oct 30 12:00:00 2026";
     bob].
Proof.
  intros gone milk bob m w.
  assert (Hlive : hasLive 1 (TaskManager.tasks m)).
  { exists milk. split; [right; left; reflexivity | split; reflexivity]. }
  destruct (proj1 (proj2 (proj2
              (mutation_refreshes_updatedAt_only gone "Buy oat milk" "" 1 m w))) Hlive)
    as (l1 & y & l2 & E & Hno & Hid & Hl & Hu & Hp & Hd).
  cbn [TaskManager.tasks m] in E.
  destruct l1 as [|a [|b [|c l1]]]; cbn [app] in E.
  - injection E as <- <-. discriminate Hl.
  - injection E as <- <- <-. exact (conj Hu (conj Hp Hd)).
  - injection E as <- <- <- _. exfalso. apply Hno.
    exists milk. split; [right; left; reflexivity | split; reflexivity].
  - injection E as _ _ _ E. destruct l1; discriminate E.
Defined.

(** C6: [deleteTask] on a record sets the deletion flag and nothing else;
    in particular [updatedAt] keeps its value. *)
Theorem deleteTask_sets_flag_only (x : TaskTracker.t) :
  TaskTracker.isTaskDeleted (TaskTracker.deleteTask x) = true /\
  TaskTracker.getId (TaskTracker.deleteTask x) = TaskTracker.getId x /\
  TaskTracker.desc (TaskTracker.deleteTask x) = TaskTracker.desc x /\
  TaskTracker.status (TaskTracker.deleteTask x) = TaskTracker.status x /\
  TaskTracker.createdAt (TaskTracker.deleteTask x) = TaskTracker.createdAt x /\
  TaskTracker.updatedAt (TaskTracker.deleteTask x) = TaskTracker.updatedAt x.
Proof. repeat split. Qed.

(** ** Claims about the store operations *)


(** C9: when [updateTask], [deleteTask], [markInProgress] or [markDone]
    prints the not-found message, the manager is the one it started from
    and the world differs by that message alone: the file, present or not,
    is what it was. *)
Theorem notFound_changes_nothing (id : Z) (description : string)
    (m : TaskManager.t) (w : World) :
  forall op,
    In op [TaskManager.updateTask id description; TaskManager.deleteTask id;
           TaskManager.markInProgress id; TaskManager.markDone id] ->
    cout (snd (op m w)) = cout w ++ TaskManager.notFound id ->
    fst (op m w) = m /\ file (snd (op m w)) = file w /\
    snd (op m w) = print (TaskManager.notFound id) w.
Proof.
  assert (G : forall f done,
             done ++ endl <> TaskManager.notFound id ->
             cout (snd (TaskManager.mutate id f done m w)) = cout w ++ TaskManager.notFound id ->
             fst (TaskManager.mutate id f done m w) = m /\
             file (snd (TaskManager.mutate id f done m w)) = file w /\
             snd (TaskManager.mutate id f done m w) = print (TaskManager.notFound id) w).
  { intros f done Hmsg H. apply mutate_reports_notFound in H; auto.
    destruct (mutate_cases id f done m w) as [[_ ->] | (l1 & x & l2 & E & _ & Hid & Hl & _)].
    - auto.
    - exfalso. apply H. rewrite E. exists x. split; [apply in_elt | auto]. }
  pose proof (done_is_not_notFound id) as (H1 & H2 & H3 & H4).
  intros op [<-|[<-|[<-|[<-|[]]]]]; apply G; assumption.
Qed.

Lemma notFound_changes_nothing_witness :
  let w := mkWorld (Some "kept") "" "now" in
  let m := TaskManager.mk [TaskTracker.mk 1 true "gone" "todo" "c" "u"] 2 in
  fst (TaskManager.deleteTask 1 m w) = m /\
  file (snd (TaskManager.deleteTask 1 m w)) = Some "kept" /\
  snd (TaskManager.deleteTask 1 m w) = print (TaskManager.notFound 1) w.
Proof.
  intros w m.
  apply (notFound_changes_nothing 1 "" m w (TaskManager.deleteTask 1)).
  - simpl. auto.
  - reflexivity.
Defined.

(** ** Listing *)

(** The listing loop prints the selected records in the order of the vector
    and reports whether it printed one. *)
Lemma showLoop_spec (keep : TaskTracker.t -> bool) :
  (forall x, keep x = true -> TaskTracker.isDeleted x = false) ->
  forall ts found w,
    TaskManager.showLoop keep ts found w =
      ((found || existsb keep ts)%bool, print (shown (filter keep ts)) w).
Proof.
  intros Hlive. induction ts as [|x ts IH]; intros found w;
    cbn [TaskManager.showLoop filter existsb].
  - change (shown []) with "". now rewrite orb_false_r, print_nil.
  - destruct (keep x) eqn:K.
    + rewrite IH. unfold TaskTracker.display. rewrite (Hlive x K).
      rewrite print_print. destruct found; reflexivity.
    + rewrite IH. reflexivity.
Qed.

Lemma filter_nil_existsb {A} (p : A -> bool) (l : list A) :
  existsb p l = match filter p l with [] => false | _ => true end.
Proof.
  induction l as [|a l IH]; simpl; [reflexivity|].
  destruct (p a); simpl; auto.
Qed.

Lemma listAllTasks_spec (m : TaskManager.t) (w : World) :
  TaskManager.listAllTasks m w =
    match liveRecords (TaskManager.tasks m) with
    | [] => print ("No tasks found" ++ endl) w
    | l => print (shown l) w
    end.
Proof.
  unfold TaskManager.listAllTasks, liveRecords.
  rewrite showLoop_spec, filter_nil_existsb.
  - unfold isLive, TaskTracker.isTaskDeleted. simpl.
    destruct (filter _ _); simpl; [now rewrite print_print|reflexivity].
  - unfold TaskTracker.isTaskDeleted. intros x. now destruct (TaskTracker.isDeleted x).
Qed.

Lemma listTasksByStatus_spec (status : string) (m : TaskManager.t) (w : World) :
  TaskManager.listTasksByStatus status m w =
    match filter (hasStatus status) (TaskManager.tasks m) with
    | [] => print ("No tasks found with status: " ++ status ++ endl) w
    | l => print (shown l) w
    end.
Proof.
  unfold TaskManager.listTasksByStatus.
  rewrite showLoop_spec, filter_nil_existsb.
  - change (fun x => (negb (TaskTracker.isTaskDeleted x)
                      && (TaskTracker.status x =? status)%string)%bool)
      with (hasStatus status).
    simpl. destruct (filter _ _); simpl; [now rewrite print_print|reflexivity].
  - unfold TaskTracker.isTaskDeleted. intros x.
    destruct (TaskTracker.isDeleted x); simpl; auto.
Qed.

(** C8: [listTasksByStatus] prints, in the order of the vector (to whose
    end [addTask] appends), one line for each record that is not deleted
    and whose status is the given string, character for character, and for
    no other record; when there is none it prints a no-tasks line, and the
    [list] verb exits with code 0 in both cases.  The file is not
    touched. *)
Theorem listTasksByStatus_exact (status : string) (m : TaskManager.t) (w : World) :
  let l := filter (hasStatus status) (TaskManager.tasks m) in
  (forall x, In x l <->
     In x (TaskManager.tasks m) /\ TaskTracker.isDeleted x = false /\
     TaskTracker.status x = status) /\
  TaskManager.listTasksByStatus status m w =
    match l with
    | [] => print ("No tasks found with status: " ++ status ++ endl) w
    | _ => print (shown l) w
    end /\
  file (TaskManager.listTasksByStatus status m w) = file w /\
  (forall d, exists x,
     TaskManager.tasks (fst (TaskManager.addTask d m w)) = (TaskManager.tasks m ++ [x])%list) /\
  (forall prog, TaskManager.construct w = Ok m ->
     main [prog; "list"; status] w = (Exit 0, TaskManager.listTasksByStatus status m w)).
Proof.
  cbv zeta. split; [|split; [|split; [|split]]].
  - intros x. rewrite filter_In. unfold hasStatus, isLive.
    rewrite andb_true_iff, negb_true_iff, String.eqb_eq. tauto.
  - rewrite listTasksByStatus_spec. destruct (filter _ _); reflexivity.
  - rewrite listTasksByStatus_spec. destruct (filter _ _); reflexivity.
  - intros d. eexists. reflexivity.
  - intros prog Hc. unfold main. rewrite Hc.
    cbn -[TaskManager.listTasksByStatus String.eqb].
    destruct (String.eqb_spec status "in-progress") as [->|]; reflexivity.
Qed.

Lemma listTasksByStatus_exact_witness :
  let milk := TaskTracker.mk 1 false "Buy milk" "todo" "c1" "u1" in
  let bob := TaskTracker.mk 2 false "Call Bob" "done" "c2" "u2" in
  let gone := TaskTracker.mk 3 true "Old" "done" "c3" "u3" in
  let loud := TaskTracker.mk 4 false "Shout" "Done" "c4" "u4" in
  let rent := TaskTracker.mk 5 false "Pay rent" "done" "c5" "u5" in
  let m := TaskManager.mk [milk; bob; gone; loud; rent] 6 in
  let w := mkWorld (Some (TaskManager.serialize [milk; bob; gone; loud; rent])) "" "now" in
  let lines := "ID: 2 | Call Bob | Status: done | Created: c2 | Updated: u2" ++ endl
               ++ "ID: 5 | Pay rent | Status: done | Created: c5 | Updated: u5" ++ endl in
  TaskManager.listTasksByStatus "done" m w = print lines w /\
  main ["task-cli"; "list"; "done"] w = (Exit 0, print lines w) /\
  main ["task-cli"; "list"; "blocked"] w =
    (Exit 0, print ("No tasks found with status: blocked" ++ endl) w).
Proof.
  intros milk bob gone loud rent m w lines.
  assert (Hc : TaskManager.construct w = Ok (TaskManager.mk [milk; bob; loud; rent] 6))
    by (vm_compute; reflexivity).
  split; [|split].
  - exact (proj1 (proj2 (listTasksByStatus_exact "done" m w))).
  - exact (proj2 (proj2 (proj2 (proj2 (listTasksByStatus_exact "done" _ w)))) "task-cli" Hc).
  - exact (proj2 (proj2 (proj2 (proj2 (listTasksByStatus_exact "blocked" _ w)))) "task-cli" Hc).
Defined.

(** ** Exit codes of the verbs that take an id *)

Lemma withId_exit (argv : list string) (need : nat) (missing : string)
    (op : Z -> TaskManager.t -> World -> TaskManager.t * World)
    (m : TaskManager.t) (w : World) :
  fst (withId argv need missing op m w) =
    (if (List.length argv <? need)%nat then Exit 1
     else match stoi (argvAt argv 2) with
          | Ok _ => Exit 0
          | Throw e => Terminate e
          | OutOfFuel => Hang
          end).
Proof.
  unfold withId. destruct (_ <? _)%nat; [reflexivity|].
  destruct (stoi (argvAt argv 2)); reflexivity.
Qed.

Lemma withId_miss (argv : list string) (need : nat) (missing done : string)
    (f : TaskTracker.t -> TaskTracker.t) (m : TaskManager.t) (w : World) (id : Z) :
  (List.length argv <? need)%nat = false ->
  stoi (argvAt argv 2) = Ok id ->
  ~ hasLive id (TaskManager.tasks m) ->
  withId argv need missing (fun i => TaskManager.mutate i f done) m w =
    (Exit 0, print (TaskManager.notFound id) w).
Proof.
  intros Hn Hs Hno. unfold withId. rewrite Hn, Hs.
  destruct (mutate_cases id f done m w) as [[_ ->] | (l1 & x & l2 & E & _ & Hid & Hl & _)];
    [reflexivity|].
  exfalso. apply Hno. rewrite E. exists x. split; [apply in_elt | auto].
Qed.

(** C7, as the code has it: for update, delete, mark-in-progress and
    mark-done, once the store has loaded, the exit code is 1 when an
    argument is missing and 0 whenever the id argument is read as an
    integer, whether a live record has that id or not; a miss prints the
    not-found message and changes nothing else.  (An id that [stoi]
    rejects ends the process with the exception.) *)
Theorem idVerb_exit_code (argv : list string) (w : World) (m : TaskManager.t) :
  TaskManager.construct w = Ok m ->
  In (argvAt argv 1) ["update"; "delete"; "mark-in-progress"; "mark-done"] ->
  let need := if (argvAt argv 1 =? "update")%string then 4%nat else 3%nat in
  fst (main argv w) =
    (if (List.length argv <? need)%nat then Exit 1
     else match stoi (argvAt argv 2) with
          | Ok _ => Exit 0
          | Throw e => Terminate e
          | OutOfFuel => Hang
          end) /\
  (forall id,
     (List.length argv <? need)%nat = false ->
     stoi (argvAt argv 2) = Ok id ->
     ~ hasLive id (TaskManager.tasks m) ->
     main argv w = (Exit 0, print (TaskManager.notFound id) w)).
Proof.
  intros Hc Hverb need.
  assert (Hargc : (List.length argv <? 2)%nat = false).
  { destruct argv as [|a [|b argv]]; simpl in Hverb; try reflexivity;
      repeat (destruct Hverb as [Hverb|Hverb]; try discriminate); contradiction. }
  unfold main. rewrite Hc, Hargc. subst need.
  simpl in Hverb.
  destruct Hverb as [<-|[<-|[<-|[<-|[]]]]]; cbn [String.eqb Ascii.eqb Bool.eqb];
    (split; [apply withId_exit | intros id Hn Hs Hno]).
  - unfold TaskManager.updateTask.
    rewrite <- (withId_miss argv 4 "Error: Please provide task ID and new description"
                 "Task updated successfully"
                 (TaskTracker.updateDescription (argvAt argv 3) (TaskManager.getCurrentTime w))
                 m w id Hn Hs Hno).
    reflexivity.
  - apply (withId_miss argv 3 _ _ _ m w id Hn Hs Hno).
  - apply (withId_miss argv 3 _ _ _ m w id Hn Hs Hno).
  - apply (withId_miss argv 3 _ _ _ m w id Hn Hs Hno).
Qed.

Lemma idVerb_exit_code_witness :
  let w := mkWorld None "" "now" in
  fst (main ["task-cli"; "delete"; "7"] w) = Exit 0 /\
  main ["task-cli"; "delete"; "7"] w = (Exit 0, print (TaskManager.notFound 7) w).
Proof.
  intros w.
  destruct (idVerb_exit_code ["task-cli"; "delete"; "7"] w TaskManager.init eq_refl
              (or_intror (or_introl eq_refl))) as [H1 H2].
  split.
  - exact H1.
  - apply (H2 7); [reflexivity | reflexivity |].
    intros (x & [] & _).
Defined.

(** C7, as the claim words it, fails: updating an id that no record has
    prints the not-found message and the process exits with code 0. *)
Lemma update_notFound_exits_zero :
  let w := mkWorld None "" "now" in
  ~ hasLive 99 (TaskManager.tasks TaskManager.init) /\
  TaskManager.construct w = Ok TaskManager.init /\
  main ["task-cli"; "update"; "99"; "x"] w = (Exit 0, print (TaskManager.notFound 99) w) /\
  fst (main ["task-cli"; "update"; "99"; "x"] w) <> Exit 1.
Proof.
  intros w. repeat split; try discriminate.
  intros (x & [] & _).
Qed.

(** ** Searching *)

Lemma starts_with_nil (s : string) : starts_with "" s = true.
Proof. destruct s; reflexivity. Qed.

Lemma starts_with_app (pat s : string) : starts_with pat (pat ++ s) = true.
Proof.
  induction pat as [|c pat IH]; simpl; [apply starts_with_nil|].
  now rewrite Ascii.eqb_refl, IH.
Qed.

(** A string that contains [pat] lets [find0] succeed, no later than at
    the occurrence that is known. *)
Lemma find0_occurs (pat pre post : string) :
  exists i, find0 pat (pre ++ pat ++ post) = Some i /\ (i <= String.length pre)%nat.
Proof.
  induction pre as [|c pre (i & Hi & Hle)].
  - exists O. simpl append. pose proof (starts_with_app pat post) as H.
    destruct (pat ++ post); simpl in *; rewrite H; auto.
  - simpl append. cbn [find0].
    destruct (starts_with pat (String c (pre ++ pat ++ post))).
    + exists O. split; [reflexivity | simpl; lia].
    + exists (S i). rewrite Hi. split; [reflexivity | simpl; lia].
Qed.

Lemma find_occurs (pat pre post : string) :
  size (pre ++ pat ++ post) < npos ->
  find (pre ++ pat ++ post) pat 0 <> npos.
Proof.
  intros Hsz. unfold find.
  destruct (Z.ltb_spec (size (pre ++ pat ++ post)) 0) as [E|E]; [unfold size in E; lia|].
  simpl drop. destruct (find0_occurs pat pre post) as (i & -> & Hle).
  unfold size in Hsz. rewrite slength_app in Hsz. lia.
Qed.

Lemma read_lines_keeps (pat pre post : string) :
  exists post', read_lines (pre ++ pat ++ post) = pre ++ pat ++ post' /\
                (String.length post' <= S (String.length post))%nat.
Proof.
  unfold read_lines.
  destruct (pre ++ pat ++ post) eqn:E.
  - exists post. rewrite <- E. split; [reflexivity | lia].
  - rewrite <- E. destruct (ends_with_nl _).
    + exists post. split; [reflexivity | lia].
    + exists (post ++ endl). rewrite !sapp_assoc. split; [reflexivity|].
      rewrite slength_app. simpl. lia.
Qed.

(** C10: a file whose text contains the two characters of an empty list
    anywhere makes [loadTasks] return at once: the manager keeps the
    state it was given, so a freshly constructed one has no tasks and
    [nextId = 1], whatever else the file holds. *)
Theorem loadTasks_drops_file_with_brackets (w : World) (pre post : string)
    (m : TaskManager.t) :
  file w = Some (pre ++ "[]" ++ post) ->
  size (pre ++ "[]" ++ post) + 1 < npos ->
  TaskManager.loadTasks w m = Ok m /\
  TaskManager.construct w = Ok (TaskManager.mk [] 1).
Proof.
  intros Hf Hsz.
  assert (G : forall m', TaskManager.loadTasks w m' = Ok m').
  { intros m'. unfold TaskManager.loadTasks. rewrite Hf.
    destruct (read_lines_keeps "[]" pre post) as (post' & -> & Hlen).
    unfold TaskManager.loadContent.
    assert (Hfind : find (pre ++ "[]" ++ post') "[]" 0 <> npos).
    { apply find_occurs. unfold size in *. rewrite !slength_app in *.
      simpl String.length in *. lia. }
    apply Z.eqb_neq in Hfind. rewrite Hfind. simpl. now rewrite orb_true_r. }
  split; [apply G | apply (G TaskManager.init)].
Qed.

Lemma loadTasks_drops_file_with_brackets_witness :
  let text := TaskManager.serialize
                [TaskTracker.mk 1 false "clean []" "todo" "c" "u";
                 TaskTracker.mk 2 false "other" "done" "c" "u"] in
  TaskManager.construct (mkWorld (Some text) "" "now") = Ok (TaskManager.mk [] 1).
Proof.
  intros text.
  refine (proj2 (loadTasks_drops_file_with_brackets
                   (mkWorld (Some text) "" "now")
                   ltac:(let s := eval cbv in (substring 0 45 text) in exact s)
                   ltac:(let s := eval cbv in (substring 47 1000 text) in exact s)
                   TaskManager.init _ _)).
  - reflexivity.
  - vm_compute. reflexivity.
Defined.

(** ** Numbers as text *)

Lemma digit_of_digit_char (d : Z) :
  0 <= d <= 9 -> digit_of (digit_char d) = Some d.
Proof.
  intros H.
  assert (C : d = 0 \/ d = 1 \/ d = 2 \/ d = 3 \/ d = 4 \/ d = 5 \/ d = 6 \/ d = 7
              \/ d = 8 \/ d = 9) by lia.
  repeat (destruct C as [->|C]; [reflexivity|]). subst d. reflexivity.
Qed.

Lemma mod10_digit (n : Z) : 0 <= n mod 10 <= 9.
Proof. pose proof (Z.mod_pos_bound n 10). lia. Qed.

Lemma decimal_digits_allDigits (fuel : nat) :
  forall n acc, allDigits acc = true -> allDigits (decimal_digits fuel n acc) = true.
Proof.
  assert (D : forall n, isDigit (digit_char (n mod 10)) = true).
  { intros n. unfold isDigit. now rewrite digit_of_digit_char by apply mod10_digit. }
  induction fuel as [|fuel IH]; intros n acc Hacc; cbn [decimal_digits].
  - cbn [allDigits]. now rewrite D.
  - destruct (n / 10 =? 0).
    + cbn [allDigits]. now rewrite D.
    + apply IH. cbn [allDigits]. now rewrite D.
Qed.

Lemma decimal_digits_nonempty (fuel : nat) (n : Z) (acc : string) :
  exists c s, decimal_digits fuel n acc = String c s.
Proof.
  revert n acc. induction fuel as [|fuel IH]; intros n acc; cbn [decimal_digits].
  - eauto.
  - destruct (n / 10 =? 0); [eauto | apply IH].
Qed.

(** Reading back the digits that were written, before any text [rest]. *)
Lemma read_decimal_digits (fuel : nat) :
  forall n rest acc,
    0 <= n < 10 ^ (Z.of_nat fuel + 1) ->
    exists k, 0 <= k /\
      read_digits acc (decimal_digits fuel n rest) =
      read_digits (Some (10 ^ k * match acc with Some a => a | None => 0 end + n)) rest.
Proof.
  induction fuel as [|fuel IH]; intros n rest acc Hn; cbn [decimal_digits].
  - exists 1. split; [lia|]. cbn [read_digits].
    assert (n mod 10 = n) as -> by (apply Z.mod_small; simpl in Hn; lia).
    rewrite digit_of_digit_char by (simpl in Hn; lia).
    reflexivity.
  - destruct (Z.eqb_spec (n / 10) 0) as [E|E].
    + exists 1. split; [lia|]. cbn [read_digits].
      assert (n < 10) by (pose proof (Z.div_mod n 10); pose proof (mod10_digit n); lia).
      assert (n mod 10 = n) as -> by (apply Z.mod_small; lia).
      rewrite digit_of_digit_char by lia. reflexivity.
    + assert (Hq : 0 <= n / 10 < 10 ^ (Z.of_nat fuel + 1)).
      { split; [apply Z.div_pos; lia|].
        apply Z.div_lt_upper_bound; [lia|].
        replace (Z.of_nat (S fuel) + 1) with (Z.succ (Z.of_nat fuel + 1)) in Hn by lia.
        rewrite Z.pow_succ_r in Hn by lia. lia. }
      destruct (IH (n / 10) (String (digit_char (n mod 10)) rest) acc Hq) as (k & Hk & ->).
      exists (Z.succ k). split; [lia|]. cbn [read_digits].
      rewrite digit_of_digit_char by apply mod10_digit.
      f_equal. f_equal. rewrite Z.pow_succ_r by lia.
      pose proof (Z.div_mod n 10). lia.
Qed.

Lemma stoi_digits (c : ascii) (s : string) :
  isDigit c = true ->
  stoi (String " " (String c s)) =
    match read_digits None (String c s) with
    | None => Throw invalid_argument
    | Some n => if ((INT_MIN <=? n) && (n <=? INT_MAX))%bool then Ok n else Throw out_of_range
    end.
Proof.
  destruct c as [[] [] [] [] [] [] [] []]; try discriminate; intros _; reflexivity.
Qed.

Lemma stoi_minus (s : string) :
  stoi (String " " (String "-" s)) =
    match read_digits None s with
    | None => Throw invalid_argument
    | Some n => if ((INT_MIN <=? - n) && (- n <=? INT_MAX))%bool then Ok (- n)
                else Throw out_of_range
    end.
Proof. reflexivity. Qed.

(** [stoi] reads back what [to_string] wrote for an [int], also after the
    blank that the file has in front of the id. *)
Lemma stoi_to_string (z : Z) :
  INT_MIN <= z <= INT_MAX -> stoi (String " " (to_string z)) = Ok z.
Proof.
  unfold INT_MIN, INT_MAX. intros Hz. unfold to_string.
  assert (Range : ((INT_MIN <=? z) && (z <=? INT_MAX))%bool = true).
  { unfold INT_MIN, INT_MAX. apply andb_true_intro. split; apply Z.leb_le; lia. }
  destruct (Z.ltb_spec z 0) as [Hneg|Hpos].
  - destruct (read_decimal_digits 10 (- z) "" None) as (k & _ & R);
      [simpl; lia|].
    change ("-" ++ decimal_digits 10 (- z) "") with (String "-" (decimal_digits 10 (- z) "")).
    rewrite stoi_minus, R. cbn [read_digits].
    rewrite Z.mul_0_r, Z.add_0_l, Z.opp_involutive, Range. reflexivity.
  - destruct (decimal_digits_nonempty 10 z "") as (c & s & E).
    pose proof (decimal_digits_allDigits 10 z "" eq_refl) as D.
    destruct (read_decimal_digits 10 z "" None) as (k & _ & R); [simpl; lia|].
    rewrite E in *. cbn [allDigits] in D. apply andb_prop in D. destruct D as [D _].
    rewrite stoi_digits by exact D.
    rewrite R. cbn [read_digits]. rewrite Z.mul_0_r, Z.add_0_l, Range. reflexivity.
Qed.

Lemma allDigits_absent (c : ascii) (s : string) :
  isDigit c = false -> allDigits s = true -> absent c s = true.
Proof.
  intros Hc. induction s as [|b s IH]; cbn [allDigits absent]; [reflexivity|].
  intros H. apply andb_prop in H. destruct H as [Hb Hs].
  rewrite (IH Hs), andb_true_r.
  destruct (Ascii.eqb_spec b c) as [->|]; [congruence | reflexivity].
Qed.

Lemma to_string_absent (c : ascii) (z : Z) :
  isDigit c = false -> Ascii.eqb "-" c = false -> absent c (to_string z) = true.
Proof.
  intros Hd Hm. unfold to_string.
  destruct (z <? 0).
  - change ("-" ++ decimal_digits 10 (- z) "") with (String "-" (decimal_digits 10 (- z) "")).
    cbn [absent]. rewrite Hm. cbn [negb andb].
    apply allDigits_absent; [exact Hd | now apply decimal_digits_allDigits].
  - apply allDigits_absent; [exact Hd | now apply decimal_digits_allDigits].
Qed.

(** ** Positions in a text that is given as a sequence of pieces *)

Lemma cat_app (l1 l2 : list string) : cat (l1 ++ l2) = cat l1 ++ cat l2.
Proof.
  induction l1 as [|x l1 IH]; [reflexivity|].
  change (cat ((x :: l1) ++ l2)) with (x ++ cat (l1 ++ l2)).
  change (cat (x :: l1)) with (x ++ cat l1).
  now rewrite IH, sapp_assoc.
Qed.

Lemma cat_split (k : nat) (l : list string) :
  cat l = cat (firstn k l) ++ cat (skipn k l).
Proof. now rewrite <- cat_app, firstn_skipn. Qed.

Lemma firstn_plus {A} (k j : nat) (l : list A) :
  firstn (k + j) l = (firstn k l ++ firstn j (skipn k l))%list.
Proof.
  revert l. induction k as [|k IH]; intros l; [reflexivity|].
  destruct l as [|x l]; simpl; [now destruct j | now rewrite IH].
Qed.

Lemma firstn_succ_nth (k : nat) (l : list string) :
  (k < List.length l)%nat -> firstn (S k) l = (firstn k l ++ [nth k l ""])%list.
Proof.
  revert l. induction k as [|k IH]; intros [|x l] H; simpl in *; try lia; [reflexivity|].
  now rewrite <- IH by lia.
Qed.

Lemma skipn_nth (k : nat) (l : list string) :
  (k < List.length l)%nat -> skipn k l = nth k l "" :: skipn (S k) l.
Proof.
  revert l. induction k as [|k IH]; intros [|x l] H; simpl in *; try lia; [reflexivity|].
  now rewrite IH by lia.
Qed.

Lemma drop_app_length (a b : string) : drop (String.length a) (a ++ b) = b.
Proof. induction a as [|c a IH]; simpl; auto. Qed.

Lemma substring_app_length (a b c : string) :
  substring (String.length a) (String.length b) (a ++ b ++ c) = b.
Proof.
  induction a as [|x a IH]; simpl; [|exact IH].
  induction b as [|y b IHb]; simpl; [now destruct c | now rewrite IHb].
Qed.

Lemma P_bounds (l : list string) (k : nat) : 0 <= P l k <= size (cat l).
Proof.
  unfold P, size. rewrite (cat_split k l) at 1. rewrite slength_app. lia.
Qed.

Lemma P_plus (l : list string) (k j : nat) :
  P l (k + j) = P l k + size (cat (firstn j (skipn k l))).
Proof.
  unfold P, size. rewrite firstn_plus, cat_app, slength_app. lia.
Qed.

Lemma P_succ (l : list string) (k : nat) :
  (k < List.length l)%nat -> P l (S k) = P l k + size (nth k l "").
Proof.
  intros H. unfold P, size. rewrite firstn_succ_nth, cat_app, slength_app by exact H.
  change (cat [nth k l ""]) with (nth k l "" ++ ""). rewrite sapp_nil_r. lia.
Qed.

Section Cursor.

Variable l : list string.
Hypothesis fits : size (cat l) < npos.

Lemma find_at (pat : string) (k : nat) :
  find (cat l) pat (P l k) =
    match find0 pat (cat (skipn k l)) with
    | Some i => P l k + Z.of_nat i
    | None => npos
    end.
Proof.
  unfold find. pose proof (P_bounds l k) as B.
  destruct (Z.ltb_spec (size (cat l)) (P l k)); [lia|].
  unfold P, size at 1. rewrite Nat2Z.id.
  rewrite (cat_split k l) at 1. now rewrite drop_app_length.
Qed.

(** [find] from the start of piece [k] stops at the start of piece [n]. *)
Lemma find_cat (pat : string) (k j n : nat) :
  n = (k + j)%nat ->
  find0 pat (cat (skipn k l)) = Some (String.length (cat (firstn j (skipn k l)))) ->
  find (cat l) pat (P l k) = P l n.
Proof.
  intros -> H. rewrite find_at, H, P_plus. reflexivity.
Qed.

Lemma P_not_npos (k : nat) : (P l k =? npos) = false.
Proof. pose proof (P_bounds l k). apply Z.eqb_neq. lia. Qed.

(** Stepping over a piece of known length. *)
Lemma advance_cat (k : nat) (c : Z) :
  (k < List.length l)%nat -> size (nth k l "") = c ->
  size_wrap (P l k + c) = P l (S k).
Proof.
  intros Hk <-. rewrite <- P_succ by exact Hk.
  pose proof (P_bounds l (S k)). unfold size_wrap, npos in *.
  apply Z.mod_small. lia.
Qed.

(** Cutting out piece [k]. *)
Lemma substr_cat (k : nat) :
  (k < List.length l)%nat ->
  substr (cat l) (P l k) (size_wrap (P l (S k) - P l k)) = Ok (nth k l "").
Proof.
  intros Hk. unfold substr. pose proof (P_bounds l k) as B.
  pose proof (P_bounds l (S k)) as B'.
  destruct (Z.ltb_spec (size (cat l)) (P l k)); [lia|].
  rewrite P_succ in * by exact Hk.
  replace (P l k + size (nth k l "") - P l k) with (size (nth k l "")) by lia.
  unfold size_wrap. rewrite Z.mod_small by (unfold npos, size in *; lia).
  rewrite Z.min_l by (unfold size in *; lia).
  unfold P, size. rewrite !Nat2Z.id.
  rewrite (cat_split k l) at 1. rewrite (skipn_nth k l Hk).
  change (cat (nth k l "" :: skipn (S k) l)) with (nth k l "" ++ cat (skipn (S k) l)).
  now rewrite substring_app_length.
Qed.

(** A quoted field that is piece [k] and is followed by its closing quote. *)
Lemma quoted_cat (k : nat) :
  (k < List.length l)%nat ->
  find0 q (cat (skipn k l)) = Some (String.length (nth k l "")) ->
  TaskManager.quoted (cat l) (P l k) = Ok (nth k l "", P l (S k)).
Proof.
  intros Hk H. unfold TaskManager.quoted.
  rewrite (find_cat q k 1 (S k)); [| lia |].
  - now rewrite substr_cat.
  - rewrite H. f_equal. rewrite (skipn_nth k l Hk).
    change (cat (firstn 1 (nth k l "" :: skipn (S k) l))) with (nth k l "" ++ "").
    now rewrite sapp_nil_r.
Qed.

End Cursor.

(** ** Walking a search through a text *)

Lemma find0_here (pat s : string) : starts_with pat s = true -> find0 pat s = Some O.
Proof. intros H. destruct s; simpl in *; now rewrite H. Qed.

Lemma find0_next (pat : string) (c : ascii) (r : string) :
  starts_with pat (String c r) = false ->
  find0 pat (String c r) = option_map S (find0 pat r).
Proof. intros H. cbn [find0]. now rewrite H. Qed.

Lemma option_map_add0 (o : option nat) : option_map (Nat.add O) o = o.
Proof. now destruct o. Qed.

(** A pattern that starts with [c] is not found inside text without [c]. *)
Lemma find0_skip (c : ascii) (pat s r : string) :
  firstIs c pat = true -> absent c s = true ->
  find0 pat (s ++ r) = option_map (Nat.add (String.length s)) (find0 pat r).
Proof.
  intros Hp. induction s as [|b s IH]; cbn [absent append String.length]; intros Ha.
  - now rewrite option_map_add0.
  - apply andb_prop in Ha. destruct Ha as [Hb Hs].
    rewrite find0_next.
    + rewrite (IH Hs). now destruct (find0 pat r).
    + destruct pat as [|a pat]; [discriminate|]. cbn [firstIs] in Hp.
      apply Ascii.eqb_eq in Hp. subst a. cbn [starts_with].
      rewrite Ascii.eqb_sym. apply negb_true_iff in Hb. now rewrite Hb.
Qed.

(** A word and a field without [c], each followed by [c]: the word with
    what follows it starts the field only if what follows does. *)
Lemma starts_with_field (c : ascii) (p r : string) :
  starts_with p r = false ->
  forall w f, absent c w = true -> absent c f = true ->
    starts_with (w ++ String c p) (f ++ String c r) = false.
Proof.
  intros Hpr. induction w as [|a w IH]; intros f Hw Hf.
  - destruct f as [|b f]; cbn [append starts_with].
    + now rewrite Hpr, andb_false_r.
    + cbn [absent] in Hf. apply andb_prop in Hf. destruct Hf as [Hb _].
      apply negb_true_iff in Hb. now rewrite Ascii.eqb_sym, Hb.
  - cbn [absent] in Hw. apply andb_prop in Hw. destruct Hw as [Ha Hw].
    destruct f as [|b f]; cbn [append starts_with].
    + apply negb_true_iff in Ha. now rewrite Ha.
    + cbn [absent] in Hf. apply andb_prop in Hf. destruct Hf as [_ Hf].
      now rewrite (IH f Hw Hf), andb_false_r.
Qed.

Lemma mismatch_before_field (c : ascii) (w p f r : string) :
  starts_with p r = false -> absent c w = true -> absent c f = true ->
  starts_with (String c (w ++ String c p)) (String c (f ++ String c r)) = false.
Proof.
  intros Hpr Hw Hf. cbn [starts_with].
  now rewrite (starts_with_field c p r Hpr w f Hw Hf), andb_false_r.
Qed.

(** [walk c w]: follow [find0] of a pattern that starts with [c] through
    literal characters, through pieces that are free of [c], and past the
    [c] in front of such a piece when the pattern is [c], the word [w],
    [c] and a colon, a blank and a quote. *)
Ltac walk c w :=
  repeat first
    [ rewrite find0_next by reflexivity
    | rewrite (find0_skip c) by (first [reflexivity | assumption])
    | rewrite find0_next
        by (apply (mismatch_before_field c w (": " ++ q));
            [reflexivity | reflexivity | assumption])
    | rewrite find0_here
        by (first [ reflexivity
                  | apply starts_with_app
                  | cbn [starts_with Ascii.eqb Bool.eqb andb]; apply starts_with_nil ]) ].

(** ** One iteration of the loader on a record that was written safely *)

Lemma safeRecord_fields (x : TaskTracker.t) :
  safeRecord x = true ->
  INT_MIN <= TaskTracker.id x <= INT_MAX /\
  safeText (TaskTracker.desc x) = true /\ safeText (TaskTracker.status x) = true /\
  safeText (TaskTracker.createdAt x) = true /\ safeText (TaskTracker.updatedAt x) = true.
Proof.
  unfold safeRecord. rewrite !andb_true_iff, !Z.leb_le. tauto.
Qed.

Lemma safeText_parts (s : string) :
  safeText s = true -> absent dq s = true /\ find0 "[]" s = None.
Proof.
  unfold safeText, noBrackets. rewrite andb_true_iff.
  destruct (find0 "[]" s); intuition discriminate.
Qed.

Ltac lengths :=
  cbn [option_map String.length cat fold_right append];
  repeat (rewrite slength_app; cbn [String.length]); first [reflexivity | f_equal; lia].

(** The offset of a key, searched from the id key of its record. *)
Ltac field_offset w :=
  cbn [skipn firstn app cat fold_right append q endl
       TaskManager.key_description TaskManager.key_status
       TaskManager.key_createdAt TaskManager.key_updatedAt];
  walk dq w; lengths.

(** The quote that closes a field. *)
Ltac closing_quote :=
  cbn [skipn nth pieces app cat fold_right append q endl];
  walk dq ""; lengths.

Section Iteration.

Variables (a gap t : string) (x : TaskTracker.t).

Let l : list string := a :: gap :: (pieces x ++ [(q ++ t)%string])%list.

Hypothesis fits : size (cat l) < npos.
Hypothesis safe : safeRecord x = true.
Hypothesis gap_ok :
  forall r, find0 TaskManager.key_id (gap ++ TaskManager.key_id ++ r)
            = Some (String.length gap).

Lemma loadLoop_step (fuel : nat) (m : TaskManager.t) :
  TaskManager.loadLoop (S fuel) (cat l) (P l 1) m =
  TaskManager.loadLoop fuel (cat l) (P l 17) (push x m).
Proof.
  destruct (safeRecord_fields x safe) as (Hid & Hd & Hs & Hc & Hu).
  apply safeText_parts in Hd, Hs, Hc, Hu.
  destruct Hd as [Hd _], Hs as [Hs _], Hc as [Hc _], Hu as [Hu _].
  assert (HNq : absent dq (to_string (TaskTracker.id x)) = true)
    by (apply to_string_absent; reflexivity).
  assert (HNc : absent "," (to_string (TaskTracker.id x)) = true)
    by (apply to_string_absent; reflexivity).
  assert (Len : List.length l = 18%nat) by reflexivity.
  cbn [TaskManager.loadLoop].
  rewrite (find_cat l TaskManager.key_id 1 1 2 eq_refl).
  2:{ subst l. cbn [skipn firstn pieces app cat fold_right].
      rewrite !sapp_nil_r. exact (gap_ok _). }
  rewrite (P_not_npos l fits).
  rewrite (find_cat l ":" 2 1 3 eq_refl).
  2:{ subst l. cbn [skipn firstn pieces app cat fold_right append q endl].
      walk ":"%char "". lengths. }
  rewrite (advance_cat l fits 3 1) by (rewrite ?Len; first [lia | reflexivity]).
  rewrite (find_cat l "," 4 1 5 eq_refl).
  2:{ subst l. cbn [skipn firstn pieces app cat fold_right append q endl].
      walk ","%char "". lengths. }
  rewrite (substr_cat l fits 4) by (rewrite Len; lia).
  cbn [bind nth l pieces app].
  change (" " ++ to_string (TaskTracker.id x))
    with (String " " (to_string (TaskTracker.id x))).
  rewrite (stoi_to_string _ Hid). cbn [bind].
  rewrite (find_cat l TaskManager.key_description 2 4 6 eq_refl).
  2:{ subst l. unfold pieces. field_offset "description". }
  rewrite (advance_cat l fits 6 16) by (rewrite ?Len; first [lia | reflexivity]).
  rewrite (quoted_cat l fits 7) by (rewrite ?Len; first [lia | subst l; closing_quote]).
  cbn [bind fst snd].
  rewrite (find_cat l TaskManager.key_status 2 7 9 eq_refl).
  2:{ subst l. unfold pieces. field_offset "status". }
  rewrite (advance_cat l fits 9 11) by (rewrite ?Len; first [lia | reflexivity]).
  rewrite (quoted_cat l fits 10) by (rewrite ?Len; first [lia | subst l; closing_quote]).
  cbn [bind fst snd].
  rewrite (find_cat l TaskManager.key_createdAt 2 10 12 eq_refl).
  2:{ subst l. unfold pieces. field_offset "createdAt". }
  rewrite (advance_cat l fits 12 14) by (rewrite ?Len; first [lia | reflexivity]).
  rewrite (quoted_cat l fits 13) by (rewrite ?Len; first [lia | subst l; closing_quote]).
  cbn [bind fst snd].
  rewrite (find_cat l TaskManager.key_updatedAt 2 13 15 eq_refl).
  2:{ subst l. unfold pieces. field_offset "updatedAt". }
  rewrite (advance_cat l fits 15 14) by (rewrite ?Len; first [lia | reflexivity]).
  rewrite (quoted_cat l fits 16) by (rewrite ?Len; first [lia | subst l; closing_quote]).
  cbn [bind fst snd nth].
  reflexivity.
Qed.

End Iteration.

(** ** The text [saveTasks] writes *)

Lemma saveLoop_live (ts : list TaskTracker.t) :
  forall first, TaskManager.saveLoop ts first = TaskManager.saveLoop (liveRecords ts) first.
Proof.
  induction ts as [|x ts IH]; intros first; [reflexivity|].
  cbn [TaskManager.saveLoop liveRecords filter].
  unfold isLive, TaskTracker.isTaskDeleted.
  destruct (TaskTracker.isDeleted x) eqn:E; cbn [negb].
  - apply IH.
  - cbn [TaskManager.saveLoop]. unfold TaskTracker.isTaskDeleted. rewrite E. cbn [negb].
    now rewrite IH.
Qed.

Lemma serialize_live (ts : list TaskTracker.t) :
  TaskManager.serialize ts = TaskManager.serialize (liveRecords ts).
Proof. unfold TaskManager.serialize. now rewrite saveLoop_live. Qed.

Lemma liveRecords_idem (ts : list TaskTracker.t) :
  liveRecords (liveRecords ts) = liveRecords ts.
Proof.
  unfold liveRecords. induction ts as [|x ts IH]; [reflexivity|].
  cbn [filter]. destruct (isLive x) eqn:E; [|exact IH].
  cbn [filter]. now rewrite E, IH.
Qed.

(** A live record as the pieces the loader cuts, followed by [r]. *)
Lemma toJson_pieces (x : TaskTracker.t) (r : string) :
  TaskTracker.isDeleted x = false ->
  TaskTracker.toJson x ++ r =
    "  {" ++ endl ++ "    " ++ cat (pieces x ++ [q ++ endl ++ "  }" ++ r]).
Proof.
  intros H. unfold TaskTracker.toJson, pieces. rewrite H.
  cbn [cat fold_right app].
  rewrite !sapp_assoc.
  cbn [append q endl TaskManager.key_description TaskManager.key_status
       TaskManager.key_createdAt TaskManager.key_updatedAt].
  rewrite ?sapp_nil_r. reflexivity.
Qed.

Lemma saveLoop_cons (x : TaskTracker.t) (rs : list TaskTracker.t) (first : bool) (r : string) :
  TaskTracker.isDeleted x = false ->
  TaskManager.saveLoop (x :: rs) first ++ r =
    (if first then "" else "," ++ endl) ++ "  {" ++ endl ++ "    "
    ++ cat (pieces x ++ [q ++ endl ++ "  }" ++ TaskManager.saveLoop rs false ++ r]).
Proof.
  intros H. cbn [TaskManager.saveLoop]. unfold TaskTracker.isTaskDeleted. rewrite H.
  cbn [negb]. rewrite !sapp_assoc, (toJson_pieces x _ H).
  now destruct first.
Qed.

(** ** The loader on the text of safe live records *)

Lemma find_from (a r pat : string) :
  find (a ++ r) pat (size a) =
    match find0 pat r with
    | Some i => size a + Z.of_nat i
    | None => npos
    end.
Proof.
  unfold find, size. rewrite slength_app.
  destruct (Z.ltb_spec (Z.of_nat (String.length a + String.length r))
              (Z.of_nat (String.length a))); [lia|].
  now rewrite Nat2Z.id, drop_app_length.
Qed.

Lemma P_one (a : string) (l : list string) : P (a :: l) 1 = size a.
Proof. unfold P. cbn [firstn cat fold_right]. now rewrite sapp_nil_r. Qed.

Lemma gapOf_ok (first : bool) (r : string) :
  find0 TaskManager.key_id (gapOf first ++ TaskManager.key_id ++ r)
  = Some (String.length (gapOf first)).
Proof.
  destruct first; cbn [gapOf headOf append q endl]; walk dq ""; reflexivity.
Qed.

Lemma loadLoop_records (rs : list TaskTracker.t) :
  Forall liveAndSafe rs ->
  forall (first : bool) (a : string) (fuel : nat) (m : TaskManager.t),
    size (a ++ headOf first ++ TaskManager.saveLoop rs first ++ endl ++ "]" ++ endl) < npos ->
    (List.length rs < fuel)%nat ->
    TaskManager.loadLoop fuel
      (a ++ headOf first ++ TaskManager.saveLoop rs first ++ endl ++ "]" ++ endl)
      (size a) m
    = Ok (fold_left (fun m x => push x m) rs m).
Proof.
  induction 1 as [|x rs [Hlive Hsafe] Hrs IH]; intros first a fuel m Hfits Hfuel.
  - destruct fuel as [|fuel]; [simpl in Hfuel; lia|].
    cbn [TaskManager.loadLoop]. rewrite find_from.
    replace (find0 TaskManager.key_id
               (headOf first ++ TaskManager.saveLoop [] first ++ endl ++ "]" ++ endl))
      with (@None nat) by (destruct first; reflexivity).
    reflexivity.
  - destruct fuel as [|fuel]; [simpl in Hfuel; lia|].
    set (t := endl ++ "  }" ++ TaskManager.saveLoop rs false ++ endl ++ "]" ++ endl).
    set (l := a :: gapOf first :: (pieces x ++ [(q ++ t)%string])%list).
    assert (E : a ++ headOf first ++ TaskManager.saveLoop (x :: rs) first
                  ++ endl ++ "]" ++ endl = cat l).
    { rewrite (saveLoop_cons x rs first _ Hlive). subst l t.
      cbn [cat fold_right]. unfold gapOf. rewrite !sapp_assoc. reflexivity. }
    rewrite E in *. rewrite <- (P_one a (gapOf first :: (pieces x ++ [(q ++ t)%string])%list)).
    fold l.
    transitivity (TaskManager.loadLoop fuel (cat l) (P l 17) (push x m));
      [exact (loadLoop_step a (gapOf first) t x Hfits Hsafe (gapOf_ok first) fuel m)|].
    cbn [fold_left].
    assert (E' : cat l = cat (firstn 17 l) ++ headOf false
                   ++ TaskManager.saveLoop rs false ++ endl ++ "]" ++ endl).
    { rewrite (cat_split 17 l) at 1. f_equal. subst l t.
      cbn [skipn pieces app cat fold_right]. rewrite sapp_nil_r. reflexivity. }
    change (P l 17) with (size (cat (firstn 17 l))).
    rewrite E' at 1. apply IH.
    + rewrite <- E'. exact Hfits.
    + simpl in Hfuel. lia.
Qed.

Lemma push_all (rs : list TaskTracker.t) :
  Forall liveAndSafe rs ->
  forall m, fold_left (fun m x => push x m) rs m =
            TaskManager.mk (TaskManager.tasks m ++ rs)
              (nextIdAfter rs (TaskManager.nextId m)).
Proof.
  induction 1 as [|x rs [Hlive _] _ IH]; intros m; cbn [fold_left nextIdAfter].
  - rewrite app_nil_r. now destruct m.
  - rewrite IH. unfold push at 1 2. cbn [TaskManager.tasks TaskManager.nextId].
    rewrite <- app_assoc. cbn [app]. unfold TaskTracker.new5.
    destruct x as [i del d s c u]. cbn in Hlive |- *. subst del. reflexivity.
Qed.

(** ** No pair of brackets in the text of safe records *)

Lemma find0_next_none (pat : string) (c : ascii) (r : string) :
  starts_with pat (String c r) = false -> find0 pat r = None ->
  find0 pat (String c r) = None.
Proof. intros H1 H2. now rewrite find0_next, H2. Qed.

Lemma find0_skip_none (c : ascii) (pat s r : string) :
  firstIs c pat = true -> absent c s = true -> find0 pat r = None ->
  find0 pat (s ++ r) = None.
Proof. intros H1 H2 H3. now rewrite (find0_skip c pat s r H1 H2), H3. Qed.

(** A field without the pair, followed by a character that is not a
    closing bracket. *)
Lemma brackets_after_field (f : string) (c : ascii) (r : string) :
  find0 "[]" f = None -> Ascii.eqb "]" c = false ->
  find0 "[]" (String c r) = None ->
  find0 "[]" (f ++ String c r) = None.
Proof.
  intros Hf Hc Hr. induction f as [|b f IH]; [exact Hr|].
  cbn [append]. cbn [find0] in Hf.
  destruct (starts_with "[]" (String b f)) eqn:E; [discriminate|].
  destruct (find0 "[]" f) eqn:F; [discriminate|].
  apply find0_next_none; [|now apply IH].
  cbn [starts_with] in E |- *.
  destruct (Ascii.eqb "[" b); [|reflexivity]. cbn [andb] in E |- *.
  destruct f as [|b' f]; cbn [append starts_with] in E |- *.
  - now rewrite Hc.
  - destruct (Ascii.eqb "]" b'); [|reflexivity].
    cbn [andb] in E. now rewrite starts_with_nil in E.
Qed.

Ltac walk_brackets :=
  repeat first
    [ reflexivity
    | assumption
    | apply find0_next_none; [reflexivity|]
    | apply (find0_skip_none "["%char); [reflexivity | assumption |]
    | apply brackets_after_field; [assumption | reflexivity |] ].

Lemma brackets_saveLoop (rs : list TaskTracker.t) :
  Forall liveAndSafe rs ->
  forall first r, find0 "[]" r = None ->
    find0 "[]" (TaskManager.saveLoop rs first ++ r) = None.
Proof.
  induction 1 as [|x rs [Hlive Hsafe] _ IH]; intros first r Hr; [exact Hr|].
  rewrite (saveLoop_cons x rs first r Hlive).
  specialize (IH false r Hr).
  destruct (safeRecord_fields x Hsafe) as (Hid & Hd & Hs & Hc & Hu).
  apply safeText_parts in Hd, Hs, Hc, Hu.
  destruct Hd as [_ Hd], Hs as [_ Hs], Hc as [_ Hc], Hu as [_ Hu].
  assert (HN : absent "[" (to_string (TaskTracker.id x)) = true)
    by (apply to_string_absent; reflexivity).
  unfold pieces. cbn [cat fold_right app]. rewrite !sapp_assoc, sapp_nil_r.
  destruct first;
    cbn [append q endl TaskManager.key_description TaskManager.key_status
         TaskManager.key_createdAt TaskManager.key_updatedAt];
    walk_brackets.
Qed.

Lemma brackets_content (rs : list TaskTracker.t) :
  Forall liveAndSafe rs ->
  find0 "[]" (TaskManager.serialize rs ++ endl) = None.
Proof.
  intros H. unfold TaskManager.serialize. rewrite !sapp_assoc.
  pose proof (brackets_saveLoop rs H true (endl ++ "]" ++ endl) eq_refl) as B.
  cbn [append endl] in *. walk_brackets.
Qed.

Lemma ends_with_nl_app (a : string) (c : ascii) :
  ends_with_nl (a ++ String c "") = Ascii.eqb c nl.
Proof.
  induction a as [|b a IH]; [reflexivity|].
  cbn [append ends_with_nl]. rewrite IH.
  destruct (a ++ String c "") eqn:E; [|reflexivity].
  destruct a; discriminate.
Qed.

Lemma read_lines_serialize (ts : list TaskTracker.t) :
  read_lines (TaskManager.serialize ts) = TaskManager.serialize ts ++ endl.
Proof.
  unfold read_lines.
  replace (TaskManager.serialize ts)
    with (String "[" (endl ++ TaskManager.saveLoop ts true ++ endl) ++ String "]" "")
    by (unfold TaskManager.serialize; cbn [append]; now rewrite !sapp_assoc).
  rewrite ends_with_nl_app. reflexivity.
Qed.

Lemma saveLoop_length (rs : list TaskTracker.t) :
  Forall liveAndSafe rs ->
  forall first, (List.length rs <= String.length (TaskManager.saveLoop rs first))%nat.
Proof.
  induction 1 as [|x rs [Hlive _] _ IH]; intros first; [simpl; lia|].
  cbn [TaskManager.saveLoop List.length]. unfold TaskTracker.isTaskDeleted, TaskTracker.toJson.
  rewrite Hlive. cbn [negb]. rewrite !slength_app. specialize (IH false).
  cbn [String.length]. lia.
Qed.

Lemma liveRecords_live (ts : list TaskTracker.t) :
  Forall (fun x => TaskTracker.isDeleted x = false) (liveRecords ts).
Proof.
  apply Forall_forall. intros x H. apply filter_In in H. destruct H as [_ H].
  unfold isLive in H. now destruct (TaskTracker.isDeleted x).
Qed.

Lemma liveAndSafe_live (ts : list TaskTracker.t) :
  Forall (fun x => safeRecord x = true) (liveRecords ts) ->
  Forall liveAndSafe (liveRecords ts).
Proof.
  intros H. pose proof (liveRecords_live ts) as L.
  rewrite Forall_forall in *. intros x Hx. split; auto.
Qed.

(** The loader on the file [saveTasks] wrote for records whose text is
    safe: the live records come back as they were, in order, and [nextId]
    is raised past each of them. *)
Lemma loadContent_serialize (ts : list TaskTracker.t) (m0 : TaskManager.t) :
  Forall (fun x => safeRecord x = true) (liveRecords ts) ->
  size (TaskManager.serialize ts) + 1 < npos ->
  TaskManager.loadContent (read_lines (TaskManager.serialize ts)) m0 =
    Ok (TaskManager.mk (TaskManager.tasks m0 ++ liveRecords ts)
          (nextIdAfter (liveRecords ts) (TaskManager.nextId m0))).
Proof.
  intros Hsafe Hfits. apply liveAndSafe_live in Hsafe.
  rewrite read_lines_serialize, serialize_live.
  assert (Hfits' : size (TaskManager.serialize (liveRecords ts) ++ endl) < npos).
  { rewrite <- serialize_live. unfold size in *. rewrite slength_app.
    cbn [String.length endl]. lia. }
  set (rs := liveRecords ts) in *.
  assert (E : TaskManager.serialize rs ++ endl
              = "" ++ headOf true ++ TaskManager.saveLoop rs true ++ endl ++ "]" ++ endl).
  { unfold TaskManager.serialize, headOf. now rewrite !sapp_assoc. }
  unfold TaskManager.loadContent.
  replace (find (TaskManager.serialize rs ++ endl) "[]" 0) with npos.
  2:{ change (find (TaskManager.serialize rs ++ endl) "[]" 0)
        with (find ("" ++ (TaskManager.serialize rs ++ endl)) "[]" (size "")).
      now rewrite find_from, (brackets_content rs Hsafe). }
  replace ((TaskManager.serialize rs ++ endl =? "")%string) with false
    by (unfold TaskManager.serialize; reflexivity).
  cbn [orb negb Z.eqb npos Pos.eqb].
  rewrite E at 2. change 0 with (size "").
  rewrite loadLoop_records; auto.
  - now rewrite push_all.
  - now rewrite <- E.
  - rewrite E at 1. cbn [append]. rewrite !slength_app.
    pose proof (saveLoop_length rs Hsafe true). lia.
Qed.

(** Saving and constructing a new manager from the file. *)
Lemma reload_safe (m : TaskManager.t) (w : World) :
  Forall (fun x => safeRecord x = true) (liveRecords (TaskManager.tasks m)) ->
  size (TaskManager.serialize (TaskManager.tasks m)) + 1 < npos ->
  TaskManager.construct (TaskManager.saveTasks m w) =
    Ok (TaskManager.mk (liveRecords (TaskManager.tasks m))
          (nextIdAfter (liveRecords (TaskManager.tasks m)) 1)).
Proof.
  intros Hsafe Hfits. unfold TaskManager.construct, TaskManager.loadTasks.
  cbn [TaskManager.saveTasks write_file file].
  now rewrite loadContent_serialize.
Qed.

(** ** Saving and reloading *)

(** C1 at a description with quotes: the text between the quotes of the
    description field ends at the first quote of the description itself,
    so the record that comes back is not the record that was saved. *)
Theorem reload_cuts_quoted_description :
  let x := TaskTracker.mk 1 false ("say " ++ q ++ "hi" ++ q) "todo" "c" "u" in
  let m := TaskManager.mk [x] 2 in
  let w := mkWorld None "" "now" in
  TaskManager.construct (TaskManager.saveTasks m w)
    = Ok (TaskManager.mk [TaskTracker.mk 1 false "say " "todo" "c" "u"] 2) /\
  TaskManager.construct (TaskManager.saveTasks m w)
    <> Ok (TaskManager.mk (liveRecords (TaskManager.tasks m)) 2).
Proof.
  cbv zeta. split; [vm_compute; reflexivity|].
  vm_compute. intros H. discriminate H.
Qed.

(** The same round trip loses every record when one description holds a
    pair of brackets. *)
Lemma reload_drops_all_on_brackets :
  let m := TaskManager.mk [TaskTracker.mk 1 false "plain" "todo" "c" "u";
                           TaskTracker.mk 2 false "see [] here" "done" "c" "u"] 3 in
  TaskManager.construct (TaskManager.saveTasks m (mkWorld None "" "now"))
    = Ok (TaskManager.mk [] 1).
Proof. vm_compute. reflexivity. Qed.

(** X1: what does hold of saving and reloading: records whose four text
    fields are free of double quotes and of bracket pairs, and whose ids are
    [int]s, come back exactly, in order, deleted records being left out. *)
Theorem reload_returns_safe_records (m : TaskManager.t) (w : World) :
  Forall (fun x => safeRecord x = true) (liveRecords (TaskManager.tasks m)) ->
  size (TaskManager.serialize (TaskManager.tasks m)) + 1 < npos ->
  exists m',
    TaskManager.construct (TaskManager.saveTasks m w) = Ok m' /\
    TaskManager.tasks m' = liveRecords (TaskManager.tasks m) /\
    liveRecords (TaskManager.tasks m') = liveRecords (TaskManager.tasks m).
Proof.
  intros Hsafe Hfits. eexists. split; [apply reload_safe; assumption|].
  cbn [TaskManager.tasks]. split; [reflexivity | apply liveRecords_idem].
Qed.

Lemma reload_returns_safe_records_witness :
  let m := TaskManager.mk [TaskTracker.mk 1 false "Buy milk, eggs; call Bob!" "todo" "c" "u";
                           TaskTracker.mk 2 true "dropped" "todo" "c" "u";
                           TaskTracker.mk 3 false "[x] done?" "in-progress" "c" "v"] 4 in
  exists m',
    TaskManager.construct (TaskManager.saveTasks m (mkWorld None "" "now")) = Ok m' /\
    TaskManager.tasks m' = liveRecords (TaskManager.tasks m) /\
    liveRecords (TaskManager.tasks m') = liveRecords (TaskManager.tasks m).
Proof.
  intros m. apply reload_returns_safe_records.
  - repeat constructor.
  - vm_compute. reflexivity.
Defined.

(** ** Ids *)

Lemma int_wrap_small (z : Z) : INT_MIN <= z <= INT_MAX -> int_wrap z = z.
Proof.
  unfold INT_MIN, INT_MAX, int_wrap. intros H.
  rewrite Z.mod_small by lia. lia.
Qed.

Lemma last_snoc {A} (l : list A) (x d : A) : last (l ++ [x]) d = x.
Proof.
  induction l as [|a l IH]; [reflexivity|].
  cbn [app]. destruct (l ++ [x])%list eqn:E; [now destruct l|].
  cbn [last]. exact IH.
Qed.

(** X19: in one process, [addTask] hands out [nextId], [nextId + 1], ...:
    the ids of tasks added one after the other are consecutive, as long as
    the counter stays within [int]. *)
Lemma addAll_ids (ds : list string) :
  forall m w,
    INT_MIN <= TaskManager.nextId m ->
    TaskManager.nextId m + Z.of_nat (List.length ds) <= INT_MAX ->
    fst (addAll ds m w) =
      map (fun k => TaskManager.nextId m + Z.of_nat k) (seq 0 (List.length ds)).
Proof.
  induction ds as [|d ds IH]; intros m w Hlo Hhi; [reflexivity|].
  cbn [addAll fst snd List.length seq map].
  cbn [TaskManager.addTask fst snd TaskManager.tasks TaskManager.nextId] in *.
  rewrite map_app. cbn [map]. rewrite last_snoc. cbn [map TaskTracker.getId TaskTracker.id
    TaskTracker.addTask TaskTracker.new1].
  rewrite Z.add_0_r. f_equal.
  rewrite IH; cbn [TaskManager.nextId];
    rewrite ?int_wrap_small by (cbn [List.length] in Hhi; unfold INT_MIN, INT_MAX in *; lia);
    try (cbn [List.length] in Hhi; unfold INT_MIN, INT_MAX in *; lia).
  rewrite <- seq_shift, map_map. apply map_ext. intros k. lia.
Qed.

(** Past every id the loader pushed, as long as none is the largest [int]. *)
Lemma nextIdAfter_exceeds (l : list TaskTracker.t) :
  Forall (fun x => INT_MIN <= TaskTracker.id x < INT_MAX) l ->
  forall n, n <= nextIdAfter l n /\
            Forall (fun x => TaskTracker.id x < nextIdAfter l n) l.
Proof.
  induction 1 as [|x l Hx _ IH]; intros n; cbn [nextIdAfter fold_left].
  - split; [lia | constructor].
  - destruct (IH (Z.max n (int_wrap (TaskTracker.id x + 1)))) as [Hn Hl].
    fold (nextIdAfter l (Z.max n (int_wrap (TaskTracker.id x + 1)))) in *.
    rewrite int_wrap_small in * by (unfold INT_MIN, INT_MAX in *; lia).
    split; [lia|]. constructor; [lia | exact Hl].
Qed.

(** C2 at a description that holds a pair of brackets: the first process
    adds it under id 1; the next process loads nothing from the file that
    was written, starts again at [nextId = 1], and gives id 1 to another
    task. *)
Theorem brackets_reset_the_counter :
  let w0 := mkWorld None "" "now" in
  let r1 := main ["task-cli"; "add"; "[]"] w0 in
  let r2 := main ["task-cli"; "add"; "x"] (mkWorld (file (snd r1)) "" "later") in
  fst r1 = Exit 0 /\
  cout (snd r1) = "Task added successfully (ID: 1)" ++ endl /\
  TaskManager.construct (snd r1) = Ok (TaskManager.mk [] 1) /\
  fst r2 = Exit 0 /\
  cout (snd r2) = "Task added successfully (ID: 1)" ++ endl /\
  fst (addAll ["x"] (TaskManager.mk [] 1) (snd r1)) = [1].
Proof. vm_compute. repeat split; reflexivity. Qed.

(** ** Records keep their place *)

Lemma sameRecordLater_refl (l : list TaskTracker.t) : Forall2 sameRecordLater l l.
Proof. induction l; constructor; auto. repeat split; auto. Qed.

Lemma sameRecordLater_trans (a b c : list TaskTracker.t) :
  Forall2 sameRecordLater a b -> Forall2 sameRecordLater b c ->
  Forall2 sameRecordLater a c.
Proof.
  intros H. revert c. induction H as [|x y a b (H1 & H2 & H3) _ IH]; intros c Hc.
  - inversion Hc. constructor.
  - inversion Hc as [|y' z b' c' (K1 & K2 & K3) Hrest]; subst.
    constructor; [|now apply IH].
    repeat split; [congruence | congruence | auto].
Qed.

Lemma continues_refl (l : list TaskTracker.t) : continues l l.
Proof. exists l, []. split; [now rewrite app_nil_r | apply sameRecordLater_refl]. Qed.

Lemma continues_trans (a b c : list TaskTracker.t) :
  continues a b -> continues b c -> continues a c.
Proof.
  intros (old1 & new1 & -> & H1) (old2 & new2 & -> & H2).
  apply Forall2_app_inv_l in H2. destruct H2 as (l1 & l2 & H2a & H2b & ->).
  exists l1, (l2 ++ new2)%list. split; [now rewrite app_assoc|].
  eapply sameRecordLater_trans; eassumption.
Qed.

Lemma mutate_continues (id : Z) (f : TaskTracker.t -> TaskTracker.t) (done : string)
    (m : TaskManager.t) (w : World) :
  (forall y, sameRecordLater y (f y)) ->
  continues (TaskManager.tasks m)
    (TaskManager.tasks (fst (TaskManager.mutate id f done m w))).
Proof.
  intros Hf.
  destruct (mutate_cases id f done m w) as [[_ ->] | (l1 & x & l2 & E & _ & _ & _ & ->)];
    cbn [fst TaskManager.tasks]; [apply continues_refl|].
  exists (l1 ++ f x :: l2)%list, []. split; [now rewrite app_nil_r|].
  rewrite E. apply Forall2_app; [apply sameRecordLater_refl|].
  constructor; [apply Hf | apply sameRecordLater_refl].
Qed.

Lemma serve_continues (r : request) (st : TaskManager.t * World) :
  continues (TaskManager.tasks (fst st)) (TaskManager.tasks (fst (serve r st))).
Proof.
  destruct st as [m w].
  destruct r; cbn [serve fst snd]; try apply continues_refl;
    try (apply mutate_continues; intros y; repeat split; auto).
  eexists (TaskManager.tasks m), _. split; [reflexivity | apply sameRecordLater_refl].
Qed.

(** A deleted record keeps its place in the vector, its id and its flag
    through every sequence of operations. *)
Lemma continues_deleted (l1 l2 ts : list TaskTracker.t) (x : TaskTracker.t) :
  continues (l1 ++ x :: l2) ts -> TaskTracker.isDeleted x = true ->
  exists l1' x' l2',
    ts = (l1' ++ x' :: l2')%list /\ List.length l1' = List.length l1 /\
    TaskTracker.id x' = TaskTracker.id x /\ TaskTracker.isDeleted x' = true.
Proof.
  intros (old & new & -> & H) Hdel.
  apply Forall2_app_inv_l in H. destruct H as (o1 & o2 & H1 & H2 & ->).
  inversion H2 as [|a x' l o2' (Hid & _ & Hkeep) Hrest]; subst.
  exists o1, x', (o2' ++ new)%list. repeat split; auto.
  - now rewrite <- app_assoc.
  - symmetry. eapply Forall2_length; eassumption.
Qed.

Lemma serveAll_keeps_deleted (rs : list request) :
  forall st l1 x l2,
    TaskManager.tasks (fst st) = (l1 ++ x :: l2)%list ->
    TaskTracker.isDeleted x = true ->
    exists l1' x' l2',
      TaskManager.tasks (fst (serveAll rs st)) = (l1' ++ x' :: l2')%list /\
      List.length l1' = List.length l1 /\
      TaskTracker.id x' = TaskTracker.id x /\ TaskTracker.isDeleted x' = true.
Proof.
  induction rs as [|r rs IH]; intros st l1 x l2 E Hdel.
  - exists l1, x, l2. auto.
  - cbn [serveAll fold_left].
    pose proof (serve_continues r st) as C. rewrite E in C.
    destruct (continues_deleted _ _ _ _ C Hdel) as (k1 & y & k2 & E' & Hlen & Hid & Hy).
    destruct (IH (serve r st) k1 y k2 E' Hy) as (l1' & x' & l2' & E2 & Hlen2 & Hid2 & Hx').
    exists l1', x', l2'. repeat split; auto; congruence.
Qed.

Lemma liveRecords_around_deleted (l1 l2 : list TaskTracker.t) (x : TaskTracker.t) :
  TaskTracker.isDeleted x = true ->
  liveRecords (l1 ++ x :: l2) = (liveRecords l1 ++ liveRecords l2)%list /\
  forall s, filter (hasStatus s) (l1 ++ x :: l2)
            = (filter (hasStatus s) l1 ++ filter (hasStatus s) l2)%list.
Proof.
  intros H. unfold liveRecords. split; [|intros s]; rewrite filter_app; cbn [filter];
    unfold hasStatus, isLive; rewrite H; reflexivity.
Qed.

(** ** Deleting *)

Lemma hasLive_app (id : Z) (a b : list TaskTracker.t) :
  hasLive id (a ++ b) <-> hasLive id a \/ hasLive id b.
Proof.
  unfold hasLive. split.
  - intros (x & Hin & H). apply in_app_or in Hin. destruct Hin; [left | right]; eauto.
  - intros [(x & Hin & H) | (x & Hin & H)]; exists x; split; auto using in_or_app.
Qed.

Lemma hasLive_liveRecords (id : Z) (ts : list TaskTracker.t) :
  hasLive id ts <-> In id (map TaskTracker.getId (liveRecords ts)).
Proof.
  unfold hasLive, liveRecords, isLive. rewrite in_map_iff. split.
  - intros (x & Hin & Hid & Hl). exists x. split; [exact Hid|].
    apply filter_In. now rewrite Hl.
  - intros (x & Hid & Hin). apply filter_In in Hin. destruct Hin as [Hin Hl].
    exists x. repeat split; auto. now destruct (TaskTracker.isDeleted x).
Qed.

Lemma hasLive_listed (id : Z) (ts : list TaskTracker.t) :
  ~ hasLive id ts ->
  (forall x, In x (liveRecords ts) -> TaskTracker.getId x <> id) /\
  (forall s x, In x (filter (hasStatus s) ts) -> TaskTracker.getId x <> id).
Proof.
  intros Hno. split.
  - intros x Hin Hid. apply Hno, hasLive_liveRecords. rewrite <- Hid. now apply in_map.
  - intros s x Hin Hid. apply filter_In in Hin. destruct Hin as [Hin Hs].
    unfold hasStatus, isLive in Hs. apply Hno. exists x. repeat split; auto.
    now destruct (TaskTracker.isDeleted x).
Qed.

Lemma miss_changes_nothing (id : Z) (f : TaskTracker.t -> TaskTracker.t) (done : string)
    (m : TaskManager.t) (w : World) :
  ~ hasLive id (TaskManager.tasks m) ->
  TaskManager.mutate id f done m w = (m, print (TaskManager.notFound id) w).
Proof.
  intros Hno.
  destruct (mutate_cases id f done m w) as [[_ E] | (l1 & x & l2 & E & _ & Hid & Hl & _)];
    [exact E|].
  exfalso. apply Hno. rewrite E. exists x. split; [apply in_elt | auto].
Qed.

(** A mutating operation whose [f] keeps the id and revives no record
    neither creates a live record with another id's number nor moves
    [nextId]. *)
Lemma mutate_keeps_retired (i id : Z) (f : TaskTracker.t -> TaskTracker.t) (done : string)
    (m : TaskManager.t) (w : World) :
  (forall x, TaskTracker.getId (f x) = TaskTracker.getId x /\
             (TaskTracker.isDeleted (f x) = false -> TaskTracker.isDeleted x = false)) ->
  ~ hasLive id (TaskManager.tasks m) ->
  ~ hasLive id (TaskManager.tasks (fst (TaskManager.mutate i f done m w))) /\
  TaskManager.nextId (fst (TaskManager.mutate i f done m w)) = TaskManager.nextId m.
Proof.
  intros Hf Hno.
  destruct (mutate_cases i f done m w) as [[_ ->] | (l1 & x & l2 & E & _ & Hid & Hl & ->)];
    cbn [fst TaskManager.tasks TaskManager.nextId]; split; auto.
  rewrite E in Hno. intros H. apply Hno.
  apply hasLive_app in H. apply hasLive_app. destruct H as [H|H]; [now left | right].
  destruct H as (y & [<-|Hin] & Hyid & Hyl).
  - destruct (Hf x) as [Hfid Hfl]. exists x. repeat split; [now left | congruence | auto].
  - exists y. repeat split; auto. now right.
Qed.

(** An id that no live record has and that lies below [nextId] stays that
    way under every operation of the store. *)
Lemma serve_keeps_retired (id : Z) (r : request) (st : TaskManager.t * World) :
  INT_MIN <= id < TaskManager.nextId (fst st) ->
  TaskManager.nextId (fst st) < INT_MAX ->
  ~ hasLive id (TaskManager.tasks (fst st)) ->
  ~ hasLive id (TaskManager.tasks (fst (serve r st))) /\
  TaskManager.nextId (fst st) <= TaskManager.nextId (fst (serve r st))
    <= TaskManager.nextId (fst st) + 1.
Proof.
  intros Hid Hmax Hno. destruct st as [m w]. cbn [fst snd] in *.
  destruct r as [d | i d | i | i | i | | s]; cbn [serve fst snd].
  - cbn [TaskManager.addTask fst TaskManager.tasks TaskManager.nextId].
    rewrite int_wrap_small by (unfold INT_MIN, INT_MAX in *; lia).
    split; [|lia]. intros H. apply hasLive_app in H. destruct H as [H|H]; [auto|].
    destruct H as (y & [<-|[]] & Hy & _). cbn in Hy. lia.
  - unfold TaskManager.updateTask.
    destruct (mutate_keeps_retired i id
                (TaskTracker.updateDescription d (TaskManager.getCurrentTime w))
                "Task updated successfully" m w) as [H1 H2]; auto.
    rewrite H2. split; [exact H1 | lia].
  - unfold TaskManager.deleteTask.
    destruct (mutate_keeps_retired i id TaskTracker.deleteTask
                "Task deleted successfully" m w) as [H1 H2]; auto.
    + intros x. split; [reflexivity | discriminate].
    + rewrite H2. split; [exact H1 | lia].
  - unfold TaskManager.markInProgress.
    destruct (mutate_keeps_retired i id
                (TaskTracker.updateStatus "in-progress" (TaskManager.getCurrentTime w))
                "Task marked as in progress" m w) as [H1 H2]; auto.
    rewrite H2. split; [exact H1 | lia].
  - unfold TaskManager.markDone.
    destruct (mutate_keeps_retired i id
                (TaskTracker.updateStatus "done" (TaskManager.getCurrentTime w))
                "Task marked as done" m w) as [H1 H2]; auto.
    rewrite H2. split; [exact H1 | lia].
  - split; [exact Hno | lia].
  - split; [exact Hno | lia].
Qed.

Lemma serveAll_keeps_retired (id : Z) (rs : list request) :
  forall st,
    INT_MIN <= id < TaskManager.nextId (fst st) ->
    TaskManager.nextId (fst st) + Z.of_nat (List.length rs) <= INT_MAX ->
    ~ hasLive id (TaskManager.tasks (fst st)) ->
    ~ hasLive id (TaskManager.tasks (fst (serveAll rs st))).
Proof.
  induction rs as [|r rs IH]; intros st Hid Hmax Hno; [exact Hno|].
  cbn [serveAll fold_left]. cbn [List.length] in Hmax.
  destruct (serve_keeps_retired id r st Hid ltac:(lia) Hno) as [H1 H2].
  apply IH; auto; lia.
Qed.

Lemma liveRecords_app (a b : list TaskTracker.t) :
  liveRecords (a ++ b) = (liveRecords a ++ liveRecords b)%list.
Proof. apply filter_app. Qed.

Lemma liveRecords_cons_live (x : TaskTracker.t) (l : list TaskTracker.t) :
  TaskTracker.isDeleted x = false -> liveRecords (x :: l) = x :: liveRecords l.
Proof. intros H. unfold liveRecords. cbn [filter]. unfold isLive at 1. now rewrite H. Qed.

(** C4, as the code has it: a [deleteTask] that finds a live record with
    the id sets the flag of the first such record.  For the rest of the
    run, whatever operations follow, that record keeps its place in the
    vector and stays deleted, and both listings print the lines of the
    live records before it and behind it and no line for it.  The file the
    deletion saved is the text of the other live records; when their text
    is safe, a new manager constructed from the file holds exactly them.
    A second [deleteTask] on the id prints Task with ID n not found exactly
    when no other live record carries the id, and then changes nothing;
    in that case, as long as the id lies below [nextId] and the counter
    stays within [int], no operation brings a live record with the id
    back, so no listing shows a record with that id and a later
    [deleteTask] on it prints the not-found line as well. *)
Theorem delete_retires_record (id : Z) (m : TaskManager.t) (w : World) :
  hasLive id (TaskManager.tasks m) ->
  let st := TaskManager.deleteTask id m w in
  let message := "Task with ID " ++ to_string id ++ " not found" ++ endl in
  exists l1 x l2,
    TaskManager.tasks m = (l1 ++ x :: l2)%list /\ ~ hasLive id l1 /\
    TaskTracker.getId x = id /\ TaskTracker.isDeleted x = false /\
    cout (snd st) = cout w ++ "Task deleted successfully" ++ endl /\
    TaskManager.tasks (fst st) =
      (l1 ++ TaskTracker.mk id true (TaskTracker.desc x) (TaskTracker.status x)
               (TaskTracker.createdAt x) (TaskTracker.updatedAt x) :: l2)%list /\
    (forall rs,
       let st' := serveAll rs st in
       exists l1' x' l2',
         TaskManager.tasks (fst st') = (l1' ++ x' :: l2')%list /\
         List.length l1' = List.length l1 /\
         TaskTracker.id x' = id /\ TaskTracker.isDeleted x' = true /\
         TaskManager.listAllTasks (fst st') (snd st') =
           print (match (liveRecords l1' ++ liveRecords l2')%list with
                  | [] => "No tasks found" ++ endl
                  | l => shown l
                  end) (snd st') /\
         (forall s,
            TaskManager.listTasksByStatus s (fst st') (snd st') =
              print (match (filter (hasStatus s) l1' ++ filter (hasStatus s) l2')%list with
                     | [] => "No tasks found with status: " ++ s ++ endl
                     | l => shown l
                     end) (snd st')) /\
         (~ hasLive id l2 ->
          INT_MIN <= id < TaskManager.nextId m ->
          TaskManager.nextId m + Z.of_nat (List.length rs) <= INT_MAX ->
          ~ hasLive id l1' /\ ~ hasLive id l2' /\
          TaskManager.deleteTask id (fst st') (snd st')
            = (fst st', print message (snd st')))) /\
    file (snd st) = Some (TaskManager.serialize (liveRecords l1 ++ liveRecords l2)) /\
    (Forall (fun y => safeRecord y = true) (liveRecords l1 ++ liveRecords l2) ->
     size (TaskManager.serialize (liveRecords l1 ++ liveRecords l2)) + 1 < npos ->
     exists m',
       TaskManager.construct (snd st) = Ok m' /\
       TaskManager.tasks m' = (liveRecords l1 ++ liveRecords l2)%list) /\
    (cout (snd (TaskManager.deleteTask id (fst st) (snd st))) = cout (snd st) ++ message
     <-> ~ hasLive id l2) /\
    (~ hasLive id l2 ->
     TaskManager.deleteTask id (fst st) (snd st) = (fst st, print message (snd st))).
Proof.
  intros Hlive st message.
  destruct (onFirstLive_hit id (TaskManager.tasks m) Hlive)
    as (l1 & x & l2 & E & Hno1 & Hxid & Hxl & Hf).
  exists l1, x, l2.
  set (gone := TaskTracker.mk id true (TaskTracker.desc x) (TaskTracker.status x)
                 (TaskTracker.createdAt x) (TaskTracker.updatedAt x)).
  assert (Hst : st = (TaskManager.mk (l1 ++ gone :: l2)%list (TaskManager.nextId m),
                      print ("Task deleted successfully" ++ endl)
                        (write_file (TaskManager.serialize (l1 ++ gone :: l2)%list) w))).
  { subst st gone. unfold TaskManager.deleteTask, TaskManager.mutate. rewrite Hf.
    unfold TaskTracker.deleteTask, TaskManager.saveTasks. cbn [TaskManager.tasks].
    unfold TaskTracker.getId in Hxid. rewrite Hxid. reflexivity. }
  clearbody st. subst st. cbn [fst snd TaskManager.tasks TaskManager.nextId].
  assert (Hgone : TaskTracker.isDeleted gone = true) by reflexivity.
  destruct (liveRecords_around_deleted l1 l2 gone Hgone) as [Hlr _].
  assert (Hrest : hasLive id (l1 ++ gone :: l2) <-> hasLive id l2).
  { rewrite hasLive_app. split.
    - intros [H|(y & [<-|Hin] & Hy & Hyl)]; [contradiction | discriminate | exists y; auto].
    - intros (y & Hin & Hy). right. exists y. split; [now right | exact Hy]. }
  split; [exact E|]. split; [exact Hno1|]. split; [exact Hxid|]. split; [exact Hxl|].
  split; [reflexivity|]. split; [reflexivity|].
  split; [|split; [|split; [|split]]].
  - intros rs.
    match goal with |- context [serveAll rs ?s] => set (st' := serveAll rs s) end.
    destruct (serveAll_keeps_deleted rs
                (TaskManager.mk (l1 ++ gone :: l2)%list (TaskManager.nextId m),
                 print ("Task deleted successfully" ++ endl)
                   (write_file (TaskManager.serialize (l1 ++ gone :: l2)%list) w))
                l1 gone l2 eq_refl Hgone)
      as (l1' & x' & l2' & E' & Hlen & Hid' & Hdel').
    fold st' in E'. exists l1', x', l2'.
    destruct (liveRecords_around_deleted l1' l2' x' Hdel') as [Hl' Hs'].
    split; [exact E'|]. split; [exact Hlen|]. split; [exact Hid'|]. split; [exact Hdel'|].
    split; [|split].
    + rewrite listAllTasks_spec, E', Hl'.
      destruct (liveRecords l1' ++ liveRecords l2')%list; reflexivity.
    + intros s. rewrite listTasksByStatus_spec, E', Hs'.
      destruct (filter (hasStatus s) l1' ++ filter (hasStatus s) l2')%list; reflexivity.
    + intros Hno2 Hid Hmax.
      assert (Hst' : ~ hasLive id (TaskManager.tasks (fst st'))).
      { apply serveAll_keeps_retired; cbn [fst TaskManager.nextId TaskManager.tasks]; auto.
        now rewrite Hrest. }
      split; [|split].
      * intros H. apply Hst'. rewrite E'. apply hasLive_app. now left.
      * intros (y & Hin & Hy). apply Hst'. rewrite E'. apply hasLive_app. right.
        exists y. split; [now right | exact Hy].
      * now apply miss_changes_nothing.
  - cbn [file print write_file]. now rewrite serialize_live, Hlr.
  - intros Hsafe Hfits.
    exists (TaskManager.mk (liveRecords (l1 ++ gone :: l2))
              (nextIdAfter (liveRecords (l1 ++ gone :: l2)) 1)).
    split; [|cbn [TaskManager.tasks]; exact Hlr].
    apply (reload_safe (TaskManager.mk (l1 ++ gone :: l2) (TaskManager.nextId m)) w);
      cbn [TaskManager.tasks]; [now rewrite Hlr | now rewrite serialize_live, Hlr].
  - rewrite <- Hrest.
    apply (mutate_reports_notFound id TaskTracker.deleteTask "Task deleted successfully"
             (TaskManager.mk (l1 ++ gone :: l2)%list (TaskManager.nextId m))).
    apply done_is_not_notFound.
  - intros Hno2. apply miss_changes_nothing. cbn [TaskManager.tasks]. now rewrite Hrest.
Qed.

Lemma delete_retires_record_witness :
  let milk := TaskTracker.mk 1 false "Buy milk" "todo" "c1" "u1" in
  let bob := TaskTracker.mk 2 false "Call Bob" "done" "c2" "u2" in
  let m := TaskManager.mk [milk; bob] 3 in
  let w := mkWorld None "" "now" in
  let st := TaskManager.deleteTask 1 m w in
  let st' := serveAll [Add "Pay rent"; MarkDone 3] st in
  let bobLine := "ID: 2 | Call Bob | Status: done | Created: c2 | Updated: u2" ++ endl in
  TaskManager.listAllTasks (fst st) (snd st) = print bobLine (snd st) /\
  TaskManager.listTasksByStatus "todo" (fst st) (snd st) =
    print ("No tasks found with status: todo" ++ endl) (snd st) /\
  TaskManager.listTasksByStatus "done" (fst st') (snd st') =
    print (bobLine ++ "ID: 3 | Pay rent | Status: done | Created: now | Updated: now" ++ endl)
      (snd st') /\
  TaskManager.deleteTask 1 (fst st) (snd st) =
    (fst st, print ("Task with ID 1 not found" ++ endl) (snd st)) /\
  TaskManager.deleteTask 1 (fst st') (snd st') =
    (fst st', print ("Task with ID 1 not found" ++ endl) (snd st')) /\
  exists m', TaskManager.construct (snd st) = Ok m' /\ TaskManager.tasks m' = [bob].
Proof.
  intros milk bob m w st st' bobLine.
  assert (Hlive : hasLive 1 (TaskManager.tasks m)).
  { exists milk. split; [left; reflexivity | split; reflexivity]. }
  destruct (delete_retires_record 1 m w Hlive)
    as (l1 & x & l2 & E & Hno1 & Hxid & Hxl & _ & _ & Hrun & _ & Hload & _ & Hsecond).
  assert (Hl1 : l1 = []).
  { destruct l1 as [|y l1]; [reflexivity|]. exfalso. apply Hno1.
    injection E as <- _. exists milk. split; [left; reflexivity | split; reflexivity]. }
  subst l1. injection E as <- <-.
  assert (Hno2 : ~ hasLive 1 [bob]).
  { intros (y & [<-|[]] & Hy & _). discriminate. }
  assert (Hid : INT_MIN <= 1 < TaskManager.nextId m) by (cbn; unfold INT_MIN; lia).
  destruct (Hrun []) as (k1 & y & k2 & Ek & Hlen & _ & _ & Hall & Hby & _).
  destruct k1; [|discriminate]. injection Ek as <- <-.
  destruct (Hrun [Add "Pay rent"; MarkDone 3])
    as (k1 & y & k2 & Ek & Hlen' & _ & _ & _ & Hby' & Hlater).
  destruct k1; [|discriminate]. injection Ek as <- <-.
  split; [exact Hall|]. split; [exact (Hby "todo")|]. split; [exact (Hby' "done")|].
  split; [exact (Hsecond Hno2)|].
  split; [exact (proj2 (proj2 (Hlater Hno2 Hid ltac:(cbn; unfold INT_MAX; lia))))|].
  apply Hload; [repeat constructor | vm_compute; reflexivity].
Defined.

(** C4, as the claim words it, fails in a store that holds two live
    records with one id, which the loader accepts from a file: the first
    [deleteTask] deletes one of them and the second [deleteTask] deletes
    the other and prints its confirmation, where the claim expects
    Task with ID 1 not found. *)
Lemma second_delete_finds_duplicate :
  let a := TaskTracker.mk 1 false "first" "todo" "c" "u" in
  let b := TaskTracker.mk 1 false "second" "todo" "c" "u" in
  let w := mkWorld (Some (TaskManager.serialize [a; b])) "" "now" in
  let m := TaskManager.mk [a; b] 2 in
  let st1 := TaskManager.deleteTask 1 m w in
  let st2 := TaskManager.deleteTask 1 (fst st1) (snd st1) in
  TaskManager.construct w = Ok m /\
  cout (snd st1) = "Task deleted successfully" ++ endl /\
  liveRecords (TaskManager.tasks (fst st1)) = [b] /\
  cout (snd st2) = "Task deleted successfully" ++ endl ++ "Task deleted successfully" ++ endl /\
  cout (snd st2) <> cout (snd st1) ++ "Task with ID 1 not found" ++ endl /\
  liveRecords (TaskManager.tasks (fst st2)) = [].
Proof. vm_compute. repeat split; try reflexivity. discriminate. Qed.

(** ** The iteration budget of the loader *)

Section Orbit.

Variable f : Z -> option Z.
Variable key : Z -> Z.
Variable N : nat.

Hypothesis factor : forall x y, key x = key y -> f x = f y.
Hypothesis inv : forall x y, 0 <= x -> f x = Some y -> 0 <= y.
Hypothesis dom : forall x y, 0 <= x -> f x = Some y -> 0 <= key x < Z.of_nat N.

Lemma iterate_add (a b : nat) (x : Z) :
  iterate f (a + b) x =
    match iterate f a x with
    | Some y => iterate f b y
    | None => None
    end.
Proof.
  revert x. induction a as [|a IH]; intros x; cbn [Nat.add iterate]; [reflexivity|].
  destruct (f x); [apply IH | reflexivity].
Qed.

Lemma iterate_prefix (a b : nat) (x : Z) :
  (a <= b)%nat -> iterate f b x <> None -> exists y, iterate f a x = Some y.
Proof.
  intros Hle H. replace b with (a + (b - a))%nat in H by lia.
  rewrite iterate_add in H. destruct (iterate f a x) as [y|]; [eauto | contradiction].
Qed.

Lemma iterate_nonneg (a : nat) :
  forall x y, 0 <= x -> iterate f a x = Some y -> 0 <= y.
Proof.
  induction a as [|a IH]; intros x y Hx H; cbn [iterate] in H.
  - now injection H as <-.
  - destruct (f x) as [z|] eqn:E; [|discriminate].
    apply (IH z y); [exact (inv x z Hx E) | exact H].
Qed.

(** A position that comes back to itself is never left. *)
Lemma iterate_cycle (d : nat) (y : Z) :
  (0 < d)%nat -> iterate f d y = Some y -> forall k, iterate f k y <> None.
Proof.
  intros Hd Hcyc k. induction k as [k IH] using lt_wf_ind.
  destruct (Nat.lt_ge_cases k d) as [Hlt|Hge].
  - destruct (iterate_prefix k d y) as (z & ->); [lia | congruence | discriminate].
  - replace k with (d + (k - d))%nat by lia.
    rewrite iterate_add, Hcyc. apply IH. lia.
Qed.

(** More than [N] steps visit some key twice, and from there on the steps
    repeat. *)
Theorem iterate_forever (x : Z) :
  0 <= x -> iterate f (S N) x <> None -> forall k, iterate f k x <> None.
Proof.
  intros Hx Hrun k Hstop.
  set (at_ := fun i => match iterate f i x with Some y => y | None => 0 end).
  assert (Hat : forall i, (i <= S N)%nat -> iterate f i x = Some (at_ i)).
  { intros i Hi. unfold at_.
    destruct (iterate_prefix i (S N) x Hi Hrun) as (y & ->). reflexivity. }
  assert (Hstep : forall i, (i <= N)%nat -> f (at_ i) = Some (at_ (S i))).
  { intros i Hi. pose proof (Hat (S i) ltac:(lia)) as H.
    replace (S i) with (i + 1)%nat in H at 1 by lia.
    rewrite iterate_add, (Hat i ltac:(lia)) in H. cbn [iterate] in H.
    destruct (f (at_ i)); [exact H | discriminate]. }
  assert (Hpos : forall i, (i <= S N)%nat -> 0 <= at_ i).
  { intros i Hi. eapply iterate_nonneg; [exact Hx | exact (Hat i Hi)]. }
  (* two equal keys among the first [S N] positions would keep the steps going *)
  assert (Hdiff : forall i j, (i < j <= N)%nat -> key (at_ i) <> key (at_ j)).
  { intros i j Hij Heq.
    cut (iterate f k x <> None); [intros Hk; exact (Hk Hstop)|]. clear Hstop.
    assert (Hsame : at_ (S i) = at_ (S j)).
    { pose proof (Hstep i ltac:(lia)) as Hi. pose proof (Hstep j ltac:(lia)) as Hj.
      rewrite (factor _ _ Heq) in Hi. congruence. }
    assert (Hcyc : iterate f (j - i) (at_ (S i)) = Some (at_ (S i))).
    { pose proof (Hat (S j) ltac:(lia)) as H.
      replace (S j) with (S i + (j - i))%nat in H at 1 by lia.
      rewrite iterate_add, (Hat (S i) ltac:(lia)) in H. now rewrite <- Hsame in H. }
    pose proof (iterate_cycle (j - i) (at_ (S i)) ltac:(lia) Hcyc) as Hall.
    destruct (Nat.le_ge_cases k (S i)) as [Hk|Hk].
    - destruct (iterate_prefix k (S N) x ltac:(lia) Hrun) as (z & ->). discriminate.
    - replace k with (S i + (k - S i))%nat by lia.
      rewrite iterate_add, (Hat (S i) ltac:(lia)). apply Hall. }
  set (keys := map (fun i => key (at_ i)) (seq 0 (S N))).
  assert (Hnd : NoDup keys).
  { apply (NoDup_nth keys 0). unfold keys. rewrite length_map, length_seq.
    intros i j Hi Hj Heq.
    rewrite (nth_indep _ 0 (key (at_ O)) (n := i)),
            (nth_indep _ 0 (key (at_ O)) (n := j)) in Heq
      by (rewrite length_map, length_seq; lia).
    rewrite !(map_nth (fun i => key (at_ i))), !seq_nth in Heq by lia.
    cbn [Nat.add] in Heq.
    destruct (Nat.lt_trichotomy i j) as [Hlt|[->|Hgt]]; [|reflexivity|].
    - exfalso. apply (Hdiff i j); [lia | exact Heq].
    - exfalso. apply (Hdiff j i); [lia | now symmetry]. }
  assert (Hincl : incl keys (map Z.of_nat (seq 0 N))).
  { intros v Hv. unfold keys in Hv. apply in_map_iff in Hv.
    destruct Hv as (i & <- & Hi). apply in_seq in Hi.
    pose proof (dom _ _ (Hpos i ltac:(lia)) (Hstep i ltac:(lia))) as B.
    apply in_map_iff. exists (Z.to_nat (key (at_ i))). split; [lia|].
    apply in_seq. lia. }
  pose proof (NoDup_incl_length Hnd Hincl) as Hlen.
  unfold keys in Hlen. rewrite !length_map, !length_seq in Hlen. lia.
Qed.

End Orbit.

Lemma starts_with_length (pat s : string) :
  starts_with pat s = true -> (String.length pat <= String.length s)%nat.
Proof.
  revert pat. induction s as [|c s IH]; intros [|a pat] H; cbn in *; try lia; try discriminate.
  apply andb_prop in H. destruct H as [_ H]. apply IH in H. lia.
Qed.

Lemma find0_bound (pat s : string) (i : nat) :
  find0 pat s = Some i -> (i + String.length pat <= String.length s)%nat.
Proof.
  revert i. induction s as [|c s IH]; intros i; cbn [find0].
  - destruct (starts_with pat "") eqn:E; [|discriminate].
    intros H. injection H as <-. now apply starts_with_length in E.
  - destruct (starts_with pat (String c s)) eqn:E.
    + intros H. injection H as <-. now apply starts_with_length in E.
    + destruct (find0 pat s) as [j|]; [|discriminate].
      intros H. injection H as <-. specialize (IH j eq_refl). cbn [String.length]. lia.
Qed.

Lemma length_drop (n : nat) (s : string) :
  String.length (drop n s) = (String.length s - n)%nat.
Proof.
  revert s. induction n as [|n IH]; intros s; cbn [drop]; [lia|].
  destruct s as [|c s]; [reflexivity|]. rewrite IH. reflexivity.
Qed.

Lemma find_nonneg (s pat : string) (pos : Z) : 0 <= pos -> 0 <= find s pat pos.
Proof.
  intros H. unfold find, npos.
  destruct (size s <? pos); [lia|]. destruct (find0 _ _); lia.
Qed.

Lemma find_bound (s pat : string) (pos : Z) :
  0 <= pos -> find s pat pos <> npos -> find s pat pos + size pat <= size s.
Proof.
  intros Hpos. unfold find.
  destruct (Z.ltb_spec (size s) pos) as [|Hle]; [congruence|].
  destruct (find0 pat (drop (Z.to_nat pos) s)) as [i|] eqn:E; [|congruence].
  intros _. apply find0_bound in E. rewrite length_drop in E.
  unfold size in *. lia.
Qed.

Lemma size_wrap_nonneg (z : Z) : 0 <= size_wrap z.
Proof. unfold size_wrap. pose proof (Z.mod_pos_bound z 18446744073709551616). lia. Qed.

Lemma substr_finishes (s : string) (pos n : Z) : substr s pos n <> OutOfFuel.
Proof. unfold substr. destruct (size s <? pos); discriminate. Qed.

Lemma stoi_finishes (s : string) : stoi s <> OutOfFuel.
Proof.
  unfold stoi. destruct (match skip_space s with
                         | String "-"%char r => (true, r)
                         | String "+"%char r => (false, r)
                         | _ => (false, skip_space s)
                         end) as [neg s2].
  destruct (read_digits None s2); [|discriminate].
  destruct (_ && _)%bool; discriminate.
Qed.

Lemma quoted_cases (content : string) (start : Z) :
  0 <= start ->
  match TaskManager.quoted content start with
  | Ok r => 0 <= snd r
  | Throw _ => True
  | OutOfFuel => False
  end.
Proof.
  intros H. unfold TaskManager.quoted.
  pose proof (substr_finishes content start
                (size_wrap (find content q start - start))) as F.
  destruct (substr _ _ _); cbn [bind snd]; auto using find_nonneg.
Qed.

(** An iteration either stops the loop with an exception or leaves a
    position that is not negative. *)
Lemma parseAt_cases (content : string) (pos : Z) :
  match parseAt content pos with
  | Ok r => 0 <= snd r
  | Throw _ => True
  | OutOfFuel => False
  end.
Proof.
  unfold parseAt.
  pose proof (substr_finishes content (size_wrap (find content ":" pos + 1))
    (size_wrap (find content "," (size_wrap (find content ":" pos + 1))
                - size_wrap (find content ":" pos + 1)))) as F1.
  destruct (substr _ _ _) as [idText| |]; cbn [bind]; auto.
  pose proof (stoi_finishes idText) as F2.
  destruct (stoi idText) as [id| |]; cbn [bind]; auto.
  repeat match goal with
  | |- context [TaskManager.quoted content ?p] =>
      let Q := fresh "Q" in
      pose proof (quoted_cases content p (size_wrap_nonneg _)) as Q;
      destruct (TaskManager.quoted content p); cbn [bind]; auto
  end.
Qed.

Lemma loadLoop_unfold (fuel : nat) (content : string) (pos : Z) (m : TaskManager.t) :
  TaskManager.loadLoop (S fuel) content pos m =
    if find content TaskManager.key_id pos =? npos then Ok m
    else match parseAt content (find content TaskManager.key_id pos) with
         | Ok r =>
             TaskManager.loadLoop fuel content (snd r)
               (TaskManager.mk (TaskManager.tasks m ++ [fst r])
                  (Z.max (TaskManager.nextId m)
                     (int_wrap (TaskTracker.id (fst r) + 1))))
         | Throw e => Throw e
         | OutOfFuel => OutOfFuel
         end.
Proof.
  cbn [TaskManager.loadLoop]. unfold parseAt.
  destruct (find content TaskManager.key_id pos =? npos); [reflexivity|].
  destruct (substr _ _ _) as [idText| |]; cbn [bind]; try reflexivity.
  destruct (stoi idText) as [id| |]; cbn [bind]; try reflexivity.
  repeat match goal with
  | |- context [TaskManager.quoted content ?p] =>
      destruct (TaskManager.quoted content p); cbn [bind]; try reflexivity
  end.
Qed.

(** The loop runs out of [n] iterations exactly when [n] hops are made. *)
Lemma loadLoop_outOfFuel (content : string) (n : nat) :
  forall pos m,
    TaskManager.loadLoop n content pos m = OutOfFuel <->
    iterate (hop content) n pos <> None.
Proof.
  induction n as [|n IH]; intros pos m.
  - cbn. split; [discriminate | reflexivity].
  - rewrite loadLoop_unfold. cbn [iterate]. unfold hop.
    destruct (find content TaskManager.key_id pos =? npos).
    + split; [discriminate | congruence].
    + pose proof (parseAt_cases content (find content TaskManager.key_id pos)) as C.
      destruct (parseAt content (find content TaskManager.key_id pos)) as [r|e|].
      * apply IH.
      * split; [discriminate | congruence].
      * contradiction.
Qed.

(** A result, once reached, is the result for every larger budget. *)
Lemma loadLoop_more_fuel (content : string) (n : nat) :
  forall pos m k,
    TaskManager.loadLoop n content pos m <> OutOfFuel ->
    TaskManager.loadLoop (n + k) content pos m = TaskManager.loadLoop n content pos m.
Proof.
  induction n as [|n IH]; intros pos m k H; [now contradiction H|].
  cbn [Nat.add]. rewrite !loadLoop_unfold in *.
  destruct (find content TaskManager.key_id pos =? npos); [reflexivity|].
  destruct (parseAt content (find content TaskManager.key_id pos)); auto.
Qed.

(** The budget [loadContent] gives the loop is enough: when it runs out,
    no number of iterations ends the loop.  (Each iteration pushes a
    record, so the program then runs until an allocation fails; the model
    does not follow it there and reports [OutOfFuel].) *)
Theorem loadContent_budget (content : string) (m : TaskManager.t) :
  TaskManager.loadContent content m = OutOfFuel ->
  forall fuel m', TaskManager.loadLoop fuel content 0 m' = OutOfFuel.
Proof.
  unfold TaskManager.loadContent.
  destruct (_ || _)%bool; [discriminate|].
  intros H fuel m'. apply loadLoop_outOfFuel in H. apply loadLoop_outOfFuel.
  apply (iterate_forever (hop content) (fun p => find content TaskManager.key_id p)
           (String.length content)); try lia; try exact H.
  - intros x y E. unfold hop. now rewrite E.
  - intros x y Hx. unfold hop.
    destruct (find content TaskManager.key_id x =? npos); [discriminate|].
    pose proof (parseAt_cases content (find content TaskManager.key_id x)) as C.
    destruct (parseAt content (find content TaskManager.key_id x)); try discriminate.
    intros E. injection E as <-. exact C.
  - intros x y Hx. unfold hop.
    destruct (Z.eqb_spec (find content TaskManager.key_id x) npos) as [|Hn]; [discriminate|].
    intros _. pose proof (find_bound content TaskManager.key_id x Hx Hn) as B.
    pose proof (find_nonneg content TaskManager.key_id x Hx).
    unfold size in *. cbn [String.length TaskManager.key_id] in B. lia.
Qed.

(** ** Further properties: what the loader guarantees for any file *)

Lemma stoi_range (s : string) (z : Z) : stoi s = Ok z -> INT_MIN <= z <= INT_MAX.
Proof.
  unfold stoi.
  destruct (match skip_space s with
            | String "-"%char r => (true, r)
            | String "+"%char r => (false, r)
            | _ => (false, skip_space s)
            end) as [neg s2].
  destruct (read_digits None s2) as [n|]; [|discriminate].
  destruct (Z.leb_spec INT_MIN (if neg then - n else n));
    destruct (Z.leb_spec (if neg then - n else n) INT_MAX);
    cbn [andb]; try discriminate.
  intros E. injection E as <-. lia.
Qed.

Lemma parseAt_record (content : string) (pos : Z) (r : TaskTracker.t * Z) :
  parseAt content pos = Ok r ->
  TaskTracker.isDeleted (fst r) = false /\
  INT_MIN <= TaskTracker.id (fst r) <= INT_MAX.
Proof.
  unfold parseAt.
  destruct (substr _ _ _) as [idText| |]; cbn [bind]; try discriminate.
  destruct (stoi idText) as [id| |] eqn:E; cbn [bind]; try discriminate.
  apply stoi_range in E.
  repeat match goal with
  | |- context [TaskManager.quoted content ?p] =>
      destruct (TaskManager.quoted content p); cbn [bind]; try discriminate
  end.
  intros H. injection H as <-. cbn. auto.
Qed.

Lemma loadedRecord_mono (n n' : Z) (l : list TaskTracker.t) :
  n <= n' -> Forall (loadedRecord n) l -> Forall (loadedRecord n') l.
Proof.
  intros Hle H. eapply Forall_impl; [|exact H].
  intros x (H1 & H2 & H3). repeat split; try tauto. intros Hx. specialize (H3 Hx). lia.
Qed.

(** Whatever the text, a loop that ends normally has appended live
    records with [int] ids and has not lowered [nextId]. *)
Lemma loadLoop_postcondition (content : string) (fuel : nat) :
  forall pos m0 m,
    TaskManager.loadLoop fuel content pos m0 = Ok m ->
    TaskManager.nextId m0 <= TaskManager.nextId m /\
    exists new,
      TaskManager.tasks m = (TaskManager.tasks m0 ++ new)%list /\
      Forall (loadedRecord (TaskManager.nextId m)) new.
Proof.
  induction fuel as [|fuel IH]; intros pos m0 m H; [discriminate|].
  rewrite loadLoop_unfold in H.
  destruct (find content TaskManager.key_id pos =? npos).
  - injection H as <-. split; [lia|]. exists []. now rewrite app_nil_r.
  - destruct (parseAt content (find content TaskManager.key_id pos)) as [r| |] eqn:E;
      try discriminate.
    apply parseAt_record in E. destruct E as [Hlive Hid].
    apply IH in H. cbn [TaskManager.tasks TaskManager.nextId] in H.
    destruct H as (Hle & new & -> & Hnew).
    split; [lia|]. exists (fst r :: new). rewrite <- app_assoc. split; [reflexivity|].
    constructor; [|exact Hnew].
    repeat split; try tauto. intros Hmax.
    rewrite int_wrap_small in Hle by (unfold INT_MIN, INT_MAX in *; lia). lia.
Qed.

(** X2: whatever the file holds, a manager that is constructed without an
    exception has [nextId >= 1], and every record in it is live, has an
    [int] id and, unless the id is the largest [int], an id below
    [nextId]. *)
Theorem construct_postcondition (w : World) (m : TaskManager.t) :
  TaskManager.construct w = Ok m ->
  1 <= TaskManager.nextId m /\
  Forall (loadedRecord (TaskManager.nextId m)) (TaskManager.tasks m).
Proof.
  unfold TaskManager.construct, TaskManager.loadTasks.
  destruct (file w) as [text|]; [|intros H; injection H as <-; cbn; split; [lia | constructor]].
  unfold TaskManager.loadContent.
  destruct (_ || _)%bool; [intros H; injection H as <-; cbn; split; [lia | constructor]|].
  intros H. apply loadLoop_postcondition in H. cbn in H.
  destruct H as (Hle & new & -> & Hnew). split; assumption.
Qed.

Lemma construct_postcondition_witness :
  let a := TaskTracker.mk 7 false "seven" "todo" "c" "u" in
  let b := TaskTracker.mk 3 false "three" "done" "c" "u" in
  let m := TaskManager.mk [a; b] 8 in
  1 <= TaskManager.nextId m /\
  Forall (loadedRecord (TaskManager.nextId m)) (TaskManager.tasks m).
Proof.
  intros a b m.
  apply (construct_postcondition (mkWorld (Some (TaskManager.serialize [a; b])) "" "now") m).
  vm_compute. reflexivity.
Defined.

(** ** Further properties: the id counter across a restart *)

Lemma nextIdAfter_app (a b : list TaskTracker.t) (n : Z) :
  nextIdAfter (a ++ b) n = nextIdAfter b (nextIdAfter a n).
Proof. unfold nextIdAfter. apply fold_left_app. Qed.

(** The counter the loader ends with is its start value or one more than
    an id it pushed. *)
Lemma nextIdAfter_origin (l : list TaskTracker.t) :
  Forall (fun x => INT_MIN <= TaskTracker.id x < INT_MAX) l ->
  forall n, nextIdAfter l n = n \/
            exists x, In x l /\ nextIdAfter l n = TaskTracker.id x + 1.
Proof.
  induction 1 as [|x l Hx _ IH]; intros n; [now left|].
  change (nextIdAfter (x :: l) n)
    with (nextIdAfter l (Z.max n (int_wrap (TaskTracker.id x + 1)))).
  rewrite int_wrap_small by (unfold INT_MIN, INT_MAX in *; lia).
  destruct (IH (Z.max n (TaskTracker.id x + 1))) as [E | (y & Hy & E)].
  - rewrite E. destruct (Z.max_spec n (TaskTracker.id x + 1)) as [[_ ->] | [_ ->]].
    + right. exists x. split; [now left | reflexivity].
    + now left.
  - right. exists y. split; [now right | exact E].
Qed.

Lemma safe_ids_in_range (l : list TaskTracker.t) :
  Forall (fun x => safeRecord x = true) l ->
  Forall (fun x => TaskTracker.id x < INT_MAX) l ->
  Forall (fun x => INT_MIN <= TaskTracker.id x < INT_MAX) l.
Proof.
  intros Hs Hm. rewrite Forall_forall in *. intros x Hx.
  destruct (safeRecord_fields x (Hs x Hx)) as [H _]. specialize (Hm x Hx). lia.
Qed.

(** X3: after [saveTasks] and a restart, the counter is computed from the
    records that were live when the file was written, and from nothing
    else: it is above each of their ids, and it is 1 or one more than one
    of them.  The ids of deleted records leave no trace in it.  (Safe text,
    no id equal to the largest [int].) *)
Theorem reload_counter_from_live_ids (m : TaskManager.t) (w : World) :
  Forall (fun x => safeRecord x = true) (liveRecords (TaskManager.tasks m)) ->
  Forall (fun x => TaskTracker.id x < INT_MAX) (liveRecords (TaskManager.tasks m)) ->
  size (TaskManager.serialize (TaskManager.tasks m)) + 1 < npos ->
  exists m',
    TaskManager.construct (TaskManager.saveTasks m w) = Ok m' /\
    Forall (fun x => TaskTracker.id x < TaskManager.nextId m')
      (liveRecords (TaskManager.tasks m)) /\
    (TaskManager.nextId m' = 1 \/
     exists x, In x (liveRecords (TaskManager.tasks m)) /\
               TaskManager.nextId m' = TaskTracker.id x + 1).
Proof.
  intros Hsafe Hmax Hfits. eexists. split; [apply reload_safe; assumption|].
  cbn [TaskManager.nextId].
  pose proof (safe_ids_in_range _ Hsafe Hmax) as Hrange.
  split.
  - apply (nextIdAfter_exceeds _ Hrange 1).
  - apply (nextIdAfter_origin _ Hrange 1).
Qed.

Lemma reload_counter_from_live_ids_witness :
  let m := TaskManager.mk [TaskTracker.mk 1 false "kept" "todo" "c" "u";
                           TaskTracker.mk 2 true "deleted last" "todo" "c" "u"] 3 in
  exists m',
    TaskManager.construct (TaskManager.saveTasks m (mkWorld None "" "now")) = Ok m' /\
    Forall (fun x => TaskTracker.id x < TaskManager.nextId m')
      (liveRecords (TaskManager.tasks m)) /\
    (TaskManager.nextId m' = 1 \/
     exists x, In x (liveRecords (TaskManager.tasks m)) /\
               TaskManager.nextId m' = TaskTracker.id x + 1).
Proof.
  intros m. apply reload_counter_from_live_ids.
  - repeat constructor.
  - repeat constructor.
  - vm_compute. reflexivity.
Defined.

Lemma nextIdAfter_at_most (l : list TaskTracker.t) (n k : Z) :
  Forall (fun x => INT_MIN <= TaskTracker.id x < INT_MAX) l ->
  n <= k -> Forall (fun x => TaskTracker.id x < k) l -> nextIdAfter l n <= k.
Proof.
  intros Hr Hn Hk.
  destruct (nextIdAfter_origin l Hr n) as [-> | (x & Hx & ->)]; [exact Hn|].
  rewrite Forall_forall in Hk. specialize (Hk x Hx). lia.
Qed.

(** X4: adding a task and restarting leaves the counter where the running
    process left it.  When the live records and the new description and
    time are safe text and the live ids are below [nextId], a manager
    constructed from the file [addTask] wrote holds the live records
    followed by the new one, under id [nextId], and its counter is
    [nextId + 1]. *)
Theorem add_then_reload_continues (d : string) (m : TaskManager.t) (w : World) :
  Forall (fun x => safeRecord x = true) (liveRecords (TaskManager.tasks m)) ->
  Forall (fun x => TaskTracker.id x < TaskManager.nextId m)
    (liveRecords (TaskManager.tasks m)) ->
  safeText d = true -> safeText (clock w) = true ->
  1 <= TaskManager.nextId m < INT_MAX ->
  size (TaskManager.serialize (TaskManager.tasks (fst (TaskManager.addTask d m w)))) + 1
    < npos ->
  TaskManager.construct (snd (TaskManager.addTask d m w)) =
    Ok (TaskManager.mk
          (liveRecords (TaskManager.tasks m)
             ++ [TaskTracker.mk (TaskManager.nextId m) false d "todo" (clock w) (clock w)])
          (TaskManager.nextId m + 1)).
Proof.
  intros Hsafe Hbelow Hd Hc Hn Hfits.
  set (new := TaskTracker.mk (TaskManager.nextId m) false d "todo" (clock w) (clock w)).
  set (m1 := TaskManager.mk (TaskManager.tasks m ++ [new])
               (int_wrap (TaskManager.nextId m + 1))).
  change (TaskManager.construct (snd (TaskManager.addTask d m w)))
    with (TaskManager.construct (TaskManager.saveTasks m1 w)).
  assert (Hlive : liveRecords (TaskManager.tasks m1)
                  = (liveRecords (TaskManager.tasks m) ++ [new])%list).
  { subst m1. cbn [TaskManager.tasks]. now rewrite liveRecords_app. }
  assert (Hnew : safeRecord new = true).
  { unfold safeRecord, new. cbn [TaskTracker.id TaskTracker.desc TaskTracker.status
      TaskTracker.createdAt TaskTracker.updatedAt].
    rewrite Hd, Hc. unfold INT_MIN, INT_MAX in *.
    destruct (Z.leb_spec (-2147483648) (TaskManager.nextId m)); [|lia].
    destruct (Z.leb_spec (TaskManager.nextId m) 2147483647); [|lia]. reflexivity. }
  rewrite reload_safe.
  - rewrite Hlive. f_equal. f_equal. rewrite nextIdAfter_app.
    assert (Hr : Forall (fun x => INT_MIN <= TaskTracker.id x < INT_MAX)
                   (liveRecords (TaskManager.tasks m))).
    { rewrite Forall_forall in *. intros x Hx.
      destruct (safeRecord_fields x (Hsafe x Hx)) as [H _]. specialize (Hbelow x Hx). lia. }
    pose proof (nextIdAfter_at_most _ 1 (TaskManager.nextId m) Hr ltac:(lia) Hbelow).
    unfold nextIdAfter at 1. cbn [fold_left TaskTracker.id new].
    rewrite int_wrap_small by (unfold INT_MIN, INT_MAX in *; lia). lia.
  - rewrite Hlive. apply Forall_app. split; [exact Hsafe | now constructor].
  - exact Hfits.
Qed.

Lemma add_then_reload_continues_witness :
  let m := TaskManager.mk [TaskTracker.mk 1 false "Buy milk" "done" "c" "u";
                           TaskTracker.mk 2 true "gone" "todo" "c" "u"] 3 in
  let w := mkWorld None "" "Fri Oct 30 10:00:00 2026" in
  TaskManager.construct (snd (TaskManager.addTask "Call Bob" m w)) =
    Ok (TaskManager.mk
          [TaskTracker.mk 1 false "Buy milk" "done" "c" "u";
           TaskTracker.mk 3 false "Call Bob" "todo" (clock w) (clock w)] 4).
Proof.
  intros m w.
  apply (add_then_reload_continues "Call Bob" m w).
  - repeat constructor.
  - repeat constructor.
  - reflexivity.
  - reflexivity.
  - cbn. unfold INT_MAX. lia.
  - vm_compute. reflexivity.
Defined.

(** ** Further properties: files the loader cannot read *)

Lemma sapp_not_empty (a : string) (c : ascii) (b : string) : a ++ String c b <> "".
Proof. destruct a; discriminate. Qed.

(** X5: a file in which the text between the first id key and the next
    comma is not a number for [stoi] (the id is quoted, say) makes
    [loadTasks] end with [stoi]'s exception.  As the manager is constructed
    before the arguments are looked at, every command, also the bare call
    that would print the usage, then ends with that exception and leaves
    the file as it is. *)
Theorem loadTasks_throws_on_bad_id (w : World) (text a t r : string) (e : exn) :
  file w = Some text ->
  read_lines text = a ++ TaskManager.key_id ++ t ++ "," ++ r ->
  absent dq a = true -> absent "," t = true ->
  find0 "[]" (read_lines text) = None ->
  stoi t = Throw e ->
  size (read_lines text) < npos ->
  TaskManager.construct w = Throw e /\
  forall argv, main argv w = (Terminate e, w).
Proof.
  intros Hfile Hc Ha Ht Hb Hs Hfits.
  assert (G : TaskManager.construct w = Throw e).
  { unfold TaskManager.construct, TaskManager.loadTasks. rewrite Hfile.
    set (l := [a; q ++ "id" ++ q; ":"; t; "," ++ r]).
    assert (E : read_lines text = cat l).
    { rewrite Hc. subst l. cbn [cat fold_right]. now rewrite sapp_nil_r. }
    unfold TaskManager.loadContent.
    replace (find (read_lines text) "[]" 0) with npos
      by (change (find (read_lines text) "[]" 0)
            with (find ("" ++ read_lines text) "[]" (size ""));
          now rewrite find_from, Hb).
    destruct (String.eqb_spec (read_lines text) "") as [Hempty|_];
      [rewrite Hc in Hempty; now apply sapp_not_empty in Hempty|].
    cbn [orb negb Z.eqb npos Pos.eqb].
    rewrite E in *. cbn [TaskManager.loadLoop].
    assert (Len : List.length l = 5%nat) by reflexivity.
    replace (find (cat l) TaskManager.key_id 0) with (P l 1).
    2:{ change (find (cat l) TaskManager.key_id 0)
          with (find ("" ++ cat l) TaskManager.key_id (size "")).
        rewrite find_from. subst l. cbn [cat fold_right].
        rewrite (find0_skip dq) by (first [reflexivity | assumption]).
        rewrite find0_here by (exact (starts_with_app TaskManager.key_id _)).
        rewrite P_one. unfold size. cbn [option_map String.length]. lia. }
    rewrite (P_not_npos l Hfits).
    rewrite (find_cat l ":" 1 1 2 eq_refl).
    2:{ subst l. cbn [skipn firstn cat fold_right append q].
        walk ":"%char "". lengths. }
    rewrite (advance_cat l Hfits 2 1) by (rewrite ?Len; first [lia | reflexivity]).
    rewrite (find_cat l "," 3 1 4 eq_refl).
    2:{ subst l. cbn [skipn firstn cat fold_right append].
        walk ","%char "". lengths. }
    rewrite (substr_cat l Hfits 3) by (rewrite Len; lia).
    cbn [nth l bind]. rewrite Hs. reflexivity. }
  split; [exact G|]. intros argv. unfold main. now rewrite G.
Qed.

Lemma loadTasks_throws_on_bad_id_witness :
  let text := "[" ++ endl ++ "  {" ++ endl ++ "    " ++ TaskManager.key_id
              ++ " " ++ q ++ "1" ++ q ++ "," ++ endl ++ "  }" ++ endl ++ "]" in
  let w := mkWorld (Some text) "" "now" in
  TaskManager.construct w = Throw invalid_argument /\
  main ["task-cli"] w = (Terminate invalid_argument, w) /\
  main ["task-cli"; "list"] w = (Terminate invalid_argument, w).
Proof.
  intros text w.
  destruct (loadTasks_throws_on_bad_id w text ("[" ++ endl ++ "  {" ++ endl ++ "    ")
              (" " ++ q ++ "1" ++ q) (endl ++ "  }" ++ endl ++ "]" ++ endl) invalid_argument
              eq_refl eq_refl eq_refl eq_refl eq_refl eq_refl eq_refl) as [H1 H2].
  split; [exact H1|]. split; apply H2.
Defined.

Lemma addAll_ids_witness :
  fst (addAll ["a"; "b"; "c"] (TaskManager.mk [] 5) (mkWorld None "" "now")) = [5; 6; 7].
Proof.
  apply (addAll_ids ["a"; "b"; "c"] (TaskManager.mk [] 5) (mkWorld None "" "now")).
  - cbn. unfold INT_MIN. lia.
  - cbn. unfold INT_MAX. lia.
Defined.

(** ** Further properties: ids as text *)

Lemma skip_space_spaces (ws s : string) :
  allSpaces ws = true -> skip_space (ws ++ s) = skip_space s.
Proof.
  induction ws as [|c ws IH]; cbn [allSpaces append]; [reflexivity|].
  intros H. apply andb_prop in H. destruct H as [Hc Hws].
  cbn [skip_space]. rewrite Hc. now apply IH.
Qed.

Lemma stoi_spaces (ws s : string) :
  allSpaces ws = true -> stoi (ws ++ s) = stoi s.
Proof. intros H. unfold stoi. now rewrite (skip_space_spaces ws s H). Qed.

Lemma decimal_digits_app (fuel : nat) (rest : string) :
  forall n acc, decimal_digits fuel n acc ++ rest = decimal_digits fuel n (acc ++ rest).
Proof.
  induction fuel as [|fuel IH]; intros n acc; cbn [decimal_digits]; [reflexivity|].
  destruct (n / 10 =? 0); [reflexivity|]. now rewrite IH.
Qed.

Lemma decimal_digits_head (fuel : nat) :
  forall n acc, exists c s, decimal_digits fuel n acc = String c s /\ isDigit c = true.
Proof.
  assert (D : forall n, isDigit (digit_char (n mod 10)) = true).
  { intros n. unfold isDigit. now rewrite digit_of_digit_char by apply mod10_digit. }
  induction fuel as [|fuel IH]; intros n acc; cbn [decimal_digits].
  - eauto.
  - destruct (n / 10 =? 0); [eauto | apply IH].
Qed.

Lemma read_digits_stop (acc : option Z) (rest : string) :
  noLeadingDigit rest = true -> read_digits acc rest = acc.
Proof.
  destruct rest as [|c rest]; [reflexivity|]. cbn [noLeadingDigit read_digits].
  unfold isDigit. now destruct (digit_of c).
Qed.

(** X6: [stoi] gives back the number [to_string] wrote for an [int], also
    with white space in front and with anything that does not start with a
    digit behind.  So the id that [addTask] prints selects that id when it
    is passed to update, delete, mark-in-progress or mark-done, and an
    argument such as [12abc] selects id 12. *)
Theorem stoi_reads_printed_id (z : Z) (ws rest : string) :
  INT_MIN <= z <= INT_MAX ->
  allSpaces ws = true -> noLeadingDigit rest = true ->
  stoi (ws ++ to_string z ++ rest) = Ok z.
Proof.
  intros Hz Hws Hrest. rewrite (stoi_spaces ws _ Hws).
  rewrite <- (stoi_spaces " " (to_string z ++ rest) eq_refl).
  change (" " ++ to_string z ++ rest) with (String " " (to_string z ++ rest)).
  assert (Range : ((INT_MIN <=? z) && (z <=? INT_MAX))%bool = true).
  { apply andb_true_intro. split; apply Z.leb_le; lia. }
  unfold to_string. unfold INT_MIN, INT_MAX in Hz.
  destruct (Z.ltb_spec z 0) as [Hneg|Hpos].
  - change (("-" ++ decimal_digits 10 (- z) "") ++ rest)
      with (String "-" (decimal_digits 10 (- z) "" ++ rest)).
    rewrite stoi_minus, decimal_digits_app. cbn [append].
    destruct (read_decimal_digits 10 (- z) rest None) as (k & _ & ->); [simpl; lia|].
    rewrite read_digits_stop by exact Hrest.
    rewrite Z.mul_0_r, Z.add_0_l, Z.opp_involutive, Range. reflexivity.
  - rewrite decimal_digits_app. cbn [append].
    destruct (decimal_digits_head 10 z rest) as (c & s & E & D).
    destruct (read_decimal_digits 10 z rest None) as (k & _ & R); [simpl; lia|].
    rewrite E in *. rewrite stoi_digits by exact D.
    rewrite R, read_digits_stop by exact Hrest.
    rewrite Z.mul_0_r, Z.add_0_l, Range. reflexivity.
Qed.

Lemma stoi_reads_printed_id_witness :
  stoi ("  " ++ to_string (-42) ++ "abc") = Ok (-42).
Proof.
  apply (stoi_reads_printed_id (-42) "  " "abc").
  - unfold INT_MIN, INT_MAX. lia.
  - reflexivity.
  - reflexivity.
Defined.

(** ** Further properties: the file and the vector in memory *)

(** X7: [saveTasks] writes the live records and nothing of the deleted
    ones: two vectors with the same live records, in the same order, give
    the same file. *)
Theorem saveTasks_writes_live_only (m m' : TaskManager.t) (w : World) :
  liveRecords (TaskManager.tasks m) = liveRecords (TaskManager.tasks m') ->
  TaskManager.saveTasks m w = TaskManager.saveTasks m' w /\
  file (TaskManager.saveTasks m w)
    = Some (TaskManager.serialize (liveRecords (TaskManager.tasks m))).
Proof.
  intros H. unfold TaskManager.saveTasks.
  rewrite (serialize_live (TaskManager.tasks m)), (serialize_live (TaskManager.tasks m')), H.
  split; reflexivity.
Qed.

Lemma saveTasks_writes_live_only_witness :
  let a := TaskTracker.mk 1 false "kept" "todo" "c" "u" in
  let b := TaskTracker.mk 2 true "gone" "todo" "c" "u" in
  let w := mkWorld None "" "now" in
  TaskManager.saveTasks (TaskManager.mk [b; a; b] 3) w
    = TaskManager.saveTasks (TaskManager.mk [a] 9) w /\
  file (TaskManager.saveTasks (TaskManager.mk [b; a; b] 3) w)
    = Some (TaskManager.serialize [a]).
Proof.
  intros a b w.
  apply (saveTasks_writes_live_only (TaskManager.mk [b; a; b] 3) (TaskManager.mk [a] 9) w).
  reflexivity.
Defined.

Lemma listAllTasks_file (m : TaskManager.t) (w : World) :
  file (TaskManager.listAllTasks m w) = file w.
Proof.
  rewrite listAllTasks_spec. now destruct (liveRecords (TaskManager.tasks m)).
Qed.

Lemma listTasksByStatus_file (s : string) (m : TaskManager.t) (w : World) :
  file (TaskManager.listTasksByStatus s m w) = file w.
Proof.
  rewrite listTasksByStatus_spec.
  now destruct (filter (hasStatus s) (TaskManager.tasks m)).
Qed.

Lemma mutate_inSync (id : Z) (f : TaskTracker.t -> TaskTracker.t) (done : string)
    (m : TaskManager.t) (w : World) :
  inSync (m, w) -> inSync (TaskManager.mutate id f done m w).
Proof.
  intros H.
  destruct (mutate_cases id f done m w) as [[_ ->] | (l1 & x & l2 & _ & _ & _ & _ & ->)].
  - exact H.
  - reflexivity.
Qed.

Lemma serve_inSync (r : request) (st : TaskManager.t * World) :
  inSync st -> inSync (serve r st).
Proof.
  destruct st as [m w]. intros H.
  destruct r; cbn [serve fst snd]; try (apply mutate_inSync; exact H).
  - reflexivity.
  - unfold inSync. cbn [fst snd]. rewrite listAllTasks_file. exact H.
  - unfold inSync. cbn [fst snd]. rewrite listTasksByStatus_file. exact H.
Qed.

(** X8: the file follows the vector.  Once the file holds what [saveTasks]
    writes for the vector in memory, it does so after every further
    operation of the store, found or not found, mutating or listing; and
    [addTask] brings the two in line whatever the file held before. *)
Theorem serveAll_keeps_file_in_sync (rs : list request) (st : TaskManager.t * World) :
  inSync st ->
  inSync (serveAll rs st) /\
  forall d m w, inSync (TaskManager.addTask d m w).
Proof.
  intros H. split; [|intros d m w; reflexivity].
  revert st H. induction rs as [|r rs IH]; intros st H; [exact H|].
  cbn [serveAll fold_left]. apply IH, serve_inSync, H.
Qed.

Lemma serveAll_keeps_file_in_sync_witness :
  let st := TaskManager.addTask "Buy milk" TaskManager.init (mkWorld None "" "now") in
  inSync (serveAll [MarkDone 1; Update 9 "nobody"; ListAll; Add "Call Bob"; Delete 1] st).
Proof.
  intros st.
  exact (proj1 (serveAll_keeps_file_in_sync
                  [MarkDone 1; Update 9 "nobody"; ListAll; Add "Call Bob"; Delete 1] st
                  eq_refl)).
Defined.

(** X9: for every vector, with deleted records or without,
    [listAllTasks] prints, in the order of the vector, one line for each
    record that is not deleted and none for a deleted one, or one line
    saying there is none, and leaves the file alone.  Once the store has
    loaded, the [list] verb alone calls it and exits with code 0; with two
    or more words after [list] the process prints nothing and still exits
    with code 0. *)
Theorem listAllTasks_exact (m : TaskManager.t) (w : World) :
  (forall x, In x (liveRecords (TaskManager.tasks m)) <->
     In x (TaskManager.tasks m) /\ TaskTracker.isDeleted x = false) /\
  TaskManager.listAllTasks m w =
    match liveRecords (TaskManager.tasks m) with
    | [] => print ("No tasks found" ++ endl) w
    | _ => print (shown (liveRecords (TaskManager.tasks m))) w
    end /\
  file (TaskManager.listAllTasks m w) = file w /\
  (forall prog, TaskManager.construct w = Ok m ->
     main [prog; "list"] w = (Exit 0, TaskManager.listAllTasks m w)) /\
  (forall prog a b more, TaskManager.construct w = Ok m ->
     main (prog :: "list" :: a :: b :: more) w = (Exit 0, w)).
Proof.
  split; [|split; [|split; [|split]]].
  - intros x. unfold liveRecords, isLive. rewrite filter_In, negb_true_iff. tauto.
  - rewrite listAllTasks_spec. now destruct (liveRecords (TaskManager.tasks m)).
  - apply listAllTasks_file.
  - intros prog Hc. unfold main. rewrite Hc. reflexivity.
  - intros prog a b more Hc. unfold main. rewrite Hc. reflexivity.
Qed.

Lemma listAllTasks_exact_witness :
  let milk := TaskTracker.mk 1 false "Buy milk" "todo" "c1" "u1" in
  let gone := TaskTracker.mk 2 true "Old" "done" "c2" "u2" in
  let bob := TaskTracker.mk 3 false "Call Bob" "done" "c3" "u3" in
  let m := TaskManager.mk [milk; gone; bob] 4 in
  let w := mkWorld (Some (TaskManager.serialize [milk; gone; bob])) "" "now" in
  let lines := "ID: 1 | Buy milk | Status: todo | Created: c1 | Updated: u1" ++ endl
               ++ "ID: 3 | Call Bob | Status: done | Created: c3 | Updated: u3" ++ endl in
  TaskManager.listAllTasks m w = print lines w /\
  TaskManager.listAllTasks (TaskManager.mk [gone] 3) w = print ("No tasks found" ++ endl) w /\
  main ["task-cli"; "list"] w = (Exit 0, print lines w) /\
  main ["task-cli"; "list"; "done"; "todo"] w = (Exit 0, w).
Proof.
  intros milk gone bob m w lines.
  assert (Hc : TaskManager.construct w = Ok (TaskManager.mk [milk; bob] 4))
    by (vm_compute; reflexivity).
  split; [|split; [|split]].
  - exact (proj1 (proj2 (listAllTasks_exact m w))).
  - exact (proj1 (proj2 (listAllTasks_exact (TaskManager.mk [gone] 3) w))).
  - exact (proj1 (proj2 (proj2 (proj2 (listAllTasks_exact _ w)))) "task-cli" Hc).
  - exact (proj2 (proj2 (proj2 (proj2 (listAllTasks_exact _ w)))) "task-cli" "done" "todo" [] Hc).
Defined.

(** ** Further properties: what [main] leaves alone *)

(** X10: the file is rewritten only by a mutating verb that has its
    arguments and finds its record, and only after the store has loaded.
    Whatever the arguments, a run of [main] that ends with another file
    content than it started with was an add with a description, or an
    update with an id and a description, or a delete, mark-in-progress or
    mark-done with an id, where for the four verbs that take an id the id
    argument was read by [stoi] and a live record had that id.  So the bare
    call, [list], an unknown verb, a verb without all of its arguments, an
    id that no live record has, an id argument that [stoi] rejects and a
    store that did not load all leave the file as it is. *)
Theorem main_writes_only_on_mutation (argv : list string) (w : World) :
  file (snd (main argv w)) <> file w ->
  exists m,
    TaskManager.construct w = Ok m /\
    ((argvAt argv 1 = "add" /\ (3 <= List.length argv)%nat) \/
     (exists id,
        stoi (argvAt argv 2) = Ok id /\ hasLive id (TaskManager.tasks m) /\
        ((argvAt argv 1 = "update" /\ (4 <= List.length argv)%nat) \/
         (In (argvAt argv 1) ["delete"; "mark-in-progress"; "mark-done"] /\
          (3 <= List.length argv)%nat)))).
Proof.
  assert (G : forall need missing f done m,
             file (snd (withId argv need missing
                          (fun i => TaskManager.mutate i f done) m w)) <> file w ->
             (need <= List.length argv)%nat /\
             exists id, stoi (argvAt argv 2) = Ok id /\ hasLive id (TaskManager.tasks m)).
  { intros need missing f done m. unfold withId.
    destruct (Nat.ltb_spec (List.length argv) need) as [Hlt|Hge];
      [intros H; now contradiction H|].
    destruct (stoi (argvAt argv 2)) as [id| |]; try (intros H; now contradiction H).
    intros H. split; [exact Hge|]. exists id. split; [reflexivity|].
    destruct (mutate_cases id f done m w) as [[_ E] | (l1 & x & l2 & E & _ & Hid & Hl & _)].
    - rewrite E in H. now contradiction H.
    - rewrite E. exists x. split; [apply in_elt | auto]. }
  unfold main. destruct (TaskManager.construct w) as [m| |] eqn:Hc;
    try (intros H; now contradiction H).
  destruct (List.length argv <? 2)%nat; [intros H; now contradiction H|].
  destruct (String.eqb_spec (argvAt argv 1) "add") as [->|_].
  { destruct (Nat.ltb_spec (List.length argv) 3) as [Hlt|Hge];
      [intros H; now contradiction H|].
    intros _. exists m. split; [reflexivity | left; split; [reflexivity | exact Hge]]. }
  destruct (String.eqb_spec (argvAt argv 1) "update") as [->|_].
  { intros H.
    apply (G 4%nat _ (TaskTracker.updateDescription (argvAt argv 3) (TaskManager.getCurrentTime w))
             "Task updated successfully" m) in H.
    destruct H as (Hn & id & Hs & Hl).
    exists m. split; [reflexivity | right]. exists id.
    split; [exact Hs | split; [exact Hl | left; split; [reflexivity | exact Hn]]]. }
  destruct (String.eqb_spec (argvAt argv 1) "delete") as [->|_].
  { intros H. apply (G 3%nat _ _ _ m) in H. destruct H as (Hn & id & Hs & Hl).
    exists m. split; [reflexivity | right]. exists id.
    split; [exact Hs | split; [exact Hl | right; split; [cbn; tauto | exact Hn]]]. }
  destruct (String.eqb_spec (argvAt argv 1) "mark-in-progress") as [->|_].
  { intros H. apply (G 3%nat _ _ _ m) in H. destruct H as (Hn & id & Hs & Hl).
    exists m. split; [reflexivity | right]. exists id.
    split; [exact Hs | split; [exact Hl | right; split; [cbn; tauto | exact Hn]]]. }
  destruct (String.eqb_spec (argvAt argv 1) "mark-done") as [->|_].
  { intros H. apply (G 3%nat _ _ _ m) in H. destruct H as (Hn & id & Hs & Hl).
    exists m. split; [reflexivity | right]. exists id.
    split; [exact Hs | split; [exact Hl | right; split; [cbn; tauto | exact Hn]]]. }
  destruct (String.eqb_spec (argvAt argv 1) "list") as [_|_].
  - destruct (List.length argv =? 2)%nat;
      [cbn [snd]; rewrite listAllTasks_file; intros H; now contradiction H|].
    destruct (List.length argv =? 3)%nat; [|intros H; now contradiction H].
    destruct (argvAt argv 2 =? "in-progress")%string; cbn [snd];
      rewrite listTasksByStatus_file; intros H; now contradiction H.
  - intros H. now contradiction H.
Qed.

Lemma main_writes_only_on_mutation_witness :
  let milk := TaskTracker.mk 1 false "Buy milk" "todo" "c1" "u1" in
  let argv := ["task-cli"; "update"; "1"; "Buy oat milk"] in
  let w := mkWorld (Some (TaskManager.serialize [milk])) "" "now" in
  exists m,
    TaskManager.construct w = Ok m /\
    ((argvAt argv 1 = "add" /\ (3 <= List.length argv)%nat) \/
     (exists id,
        stoi (argvAt argv 2) = Ok id /\ hasLive id (TaskManager.tasks m) /\
        ((argvAt argv 1 = "update" /\ (4 <= List.length argv)%nat) \/
         (In (argvAt argv 1) ["delete"; "mark-in-progress"; "mark-done"] /\
          (3 <= List.length argv)%nat)))).
Proof.
  intros milk argv w. apply (main_writes_only_on_mutation argv w).
  vm_compute. discriminate.
Defined.

(** ** Further properties: what the operations keep *)

(** X11: no operation of the store removes a record from the vector,
    moves one, changes an id or a creation time, or brings a deleted
    record back.  After any sequence of operations the vector starts with
    the records it had, position by position, each with its id and
    [createdAt] and, if it was deleted, still deleted; what was added
    stands behind them. *)
Theorem serveAll_continues (rs : list request) (st : TaskManager.t * World) :
  continues (TaskManager.tasks (fst st)) (TaskManager.tasks (fst (serveAll rs st))).
Proof.
  revert st. induction rs as [|r rs IH]; intros st; [apply continues_refl|].
  cbn [serveAll fold_left].
  eapply continues_trans; [apply (serve_continues r st) | apply IH].
Qed.

Lemma mutate_ids (id : Z) (f : TaskTracker.t -> TaskTracker.t) (done : string)
    (m : TaskManager.t) (w : World) :
  (forall y, TaskTracker.getId (f y) = TaskTracker.getId y) ->
  map TaskTracker.getId (TaskManager.tasks (fst (TaskManager.mutate id f done m w)))
    = map TaskTracker.getId (TaskManager.tasks m) /\
  TaskManager.nextId (fst (TaskManager.mutate id f done m w)) = TaskManager.nextId m.
Proof.
  intros Hf.
  destruct (mutate_cases id f done m w) as [[_ ->] | (l1 & x & l2 & E & _ & _ & _ & ->)];
    cbn [fst TaskManager.tasks TaskManager.nextId]; [now split|].
  split; [|reflexivity]. rewrite E, !map_app. cbn [map]. now rewrite Hf.
Qed.

Lemma idsFresh_ids (m m' : TaskManager.t) :
  map TaskTracker.getId (TaskManager.tasks m') = map TaskTracker.getId (TaskManager.tasks m) ->
  TaskManager.nextId m' = TaskManager.nextId m ->
  idsFresh m -> idsFresh m'.
Proof.
  unfold idsFresh. intros E En [Hnd Hlt]. rewrite E, En. split; [exact Hnd|].
  rewrite <- (Forall_map TaskTracker.getId (fun i => i < TaskManager.nextId m)) in *.
  now rewrite E.
Qed.

Lemma NoDup_snoc {A} (l : list A) (a : A) :
  NoDup l -> ~ In a l -> NoDup (l ++ [a]).
Proof.
  induction l as [|b l IH]; intros Hnd Hin; cbn [app].
  - constructor; [intros [] | constructor].
  - inversion Hnd as [|b' l' Hb Hl]; subst. constructor.
    + intros H. apply in_app_or in H. destruct H as [H|[<-|[]]]; [auto|].
      apply Hin. now left.
    + apply IH; [exact Hl|]. intros H. apply Hin. now right.
Qed.

Lemma serve_keeps_ids_fresh (r : request) (st : TaskManager.t * World) :
  INT_MIN <= TaskManager.nextId (fst st) < INT_MAX ->
  idsFresh (fst st) ->
  idsFresh (fst (serve r st)) /\
  TaskManager.nextId (fst st) <= TaskManager.nextId (fst (serve r st))
    <= TaskManager.nextId (fst st) + 1.
Proof.
  destruct st as [m w]. cbn [fst snd]. intros Hn Hfresh.
  destruct r as [d | i d | i | i | i | | s]; cbn [serve fst snd];
    try (split; [exact Hfresh | lia]).
  - cbn [TaskManager.addTask fst TaskManager.tasks TaskManager.nextId].
    rewrite int_wrap_small by (unfold INT_MIN, INT_MAX in *; lia).
    split; [|lia]. destruct Hfresh as [Hnd Hlt]. unfold idsFresh.
    cbn [TaskManager.tasks TaskManager.nextId]. split.
    + rewrite map_app. cbn [map]. apply NoDup_snoc; [exact Hnd|].
      intros Hin. apply in_map_iff in Hin.
      destruct Hin as (x & Hx & Hin). rewrite Forall_forall in Hlt.
      specialize (Hlt x Hin). cbn in Hx. lia.
    + apply Forall_app. split.
      * eapply Forall_impl; [|exact Hlt]. cbn. intros; lia.
      * constructor; [cbn; lia | constructor].
  - destruct (mutate_ids i (TaskTracker.updateDescription d (TaskManager.getCurrentTime w))
                "Task updated successfully" m w (fun _ => eq_refl)) as [E En].
    unfold TaskManager.updateTask. rewrite En. split; [|lia]. eapply idsFresh_ids; eauto.
  - destruct (mutate_ids i TaskTracker.deleteTask
                "Task deleted successfully" m w (fun _ => eq_refl)) as [E En].
    unfold TaskManager.deleteTask. rewrite En. split; [|lia]. eapply idsFresh_ids; eauto.
  - destruct (mutate_ids i (TaskTracker.updateStatus "in-progress" (TaskManager.getCurrentTime w))
                "Task marked as in progress" m w (fun _ => eq_refl)) as [E En].
    unfold TaskManager.markInProgress. rewrite En. split; [|lia]. eapply idsFresh_ids; eauto.
  - destruct (mutate_ids i (TaskTracker.updateStatus "done" (TaskManager.getCurrentTime w))
                "Task marked as done" m w (fun _ => eq_refl)) as [E En].
    unfold TaskManager.markDone. rewrite En. split; [|lia]. eapply idsFresh_ids; eauto.
Qed.

(** X12: unique ids stay unique.  When the ids in the vector, deleted
    records included, are pairwise distinct and below [nextId], they are
    so after any sequence of operations that does not push [nextId] past
    the largest [int]: [addTask] never hands out an id that is, or was, in
    use in this process. *)
Theorem serveAll_keeps_ids_fresh (rs : list request) (st : TaskManager.t * World) :
  INT_MIN <= TaskManager.nextId (fst st) ->
  TaskManager.nextId (fst st) + Z.of_nat (List.length rs) <= INT_MAX ->
  idsFresh (fst st) ->
  idsFresh (fst (serveAll rs st)).
Proof.
  revert st. induction rs as [|r rs IH]; intros st Hlo Hhi Hfresh; [exact Hfresh|].
  cbn [serveAll fold_left]. cbn [List.length] in Hhi.
  destruct (serve_keeps_ids_fresh r st ltac:(lia) Hfresh) as [H1 H2].
  apply IH; [lia | lia | exact H1].
Qed.

Lemma serveAll_keeps_ids_fresh_witness :
  let st := (TaskManager.mk [TaskTracker.mk 1 false "a" "todo" "c" "u";
                             TaskTracker.mk 2 true "b" "todo" "c" "u"] 3,
             mkWorld None "" "now") in
  idsFresh (fst (serveAll [Add "c"; Delete 1; Add "d"; MarkDone 3] st)).
Proof.
  intros st.
  apply (serveAll_keeps_ids_fresh [Add "c"; Delete 1; Add "d"; MarkDone 3] st).
  - cbn. unfold INT_MIN. lia.
  - cbn. unfold INT_MAX. lia.
  - split.
    + cbn. repeat constructor; cbn; intuition discriminate.
    + cbn. repeat constructor.
Defined.

(** ** Further properties: one operation after another *)

(** With pairwise distinct live ids, the record the lookup finds is the
    only live one with its id. *)
Lemma unique_live_split (l1 l2 : list TaskTracker.t) (x : TaskTracker.t) :
  NoDup (map TaskTracker.getId (liveRecords (l1 ++ x :: l2))) ->
  TaskTracker.isDeleted x = false ->
  ~ hasLive (TaskTracker.getId x) l2.
Proof.
  intros Hdup Hlive H.
  rewrite liveRecords_app, (liveRecords_cons_live x l2 Hlive), map_app in Hdup.
  cbn [map] in Hdup. apply NoDup_remove_2 in Hdup.
  apply Hdup, in_or_app. right. now apply hasLive_liveRecords.
Qed.

Lemma setStatus_relists (id : Z) (s done : string) (m : TaskManager.t) (w : World) :
  NoDup (map TaskTracker.getId (liveRecords (TaskManager.tasks m))) ->
  hasLive id (TaskManager.tasks m) ->
  let m' := fst (TaskManager.mutate id
                   (TaskTracker.updateStatus s (TaskManager.getCurrentTime w)) done m w) in
  (exists x, In x (filter (hasStatus s) (TaskManager.tasks m')) /\
             TaskTracker.getId x = id /\ TaskTracker.updatedAt x = clock w) /\
  (forall s' x, s' <> s -> In x (filter (hasStatus s') (TaskManager.tasks m')) ->
                TaskTracker.getId x <> id).
Proof.
  intros Hdup Hlive m'. subst m'.
  destruct (mutate_cases id (TaskTracker.updateStatus s (TaskManager.getCurrentTime w))
              done m w) as [[Hno _] | (l1 & x & l2 & E & Hno1 & Hxid & Hxl & ->)];
    [contradiction|].
  cbn [fst TaskManager.tasks].
  rewrite E in Hdup. pose proof (unique_live_split l1 l2 x Hdup Hxl) as Hno2.
  rewrite Hxid in Hno2. split.
  - exists (TaskTracker.updateStatus s (TaskManager.getCurrentTime w) x).
    split; [|split; [exact Hxid | reflexivity]].
    apply filter_In. split; [apply in_elt|].
    unfold hasStatus, isLive. cbn. now rewrite Hxl, String.eqb_refl.
  - intros s' y Hs' Hin Hy. apply filter_In in Hin. destruct Hin as [Hin Hst].
    unfold hasStatus, isLive in Hst. apply andb_prop in Hst. destruct Hst as [Hl Hst].
    apply negb_true_iff in Hl. apply String.eqb_eq in Hst.
    apply in_app_or in Hin. destruct Hin as [Hin | [<- | Hin]].
    + apply Hno1. exists y. auto.
    + cbn in Hst. congruence.
    + apply Hno2. exists y. auto.
Qed.

(** X13: marking moves a record from one status listing to another.  In a
    store whose live records have pairwise distinct ids, after [markDone]
    (or [markInProgress]) has found the id, [listTasksByStatus] for the new
    status shows a record with that id, updated at the current time, and
    for every other status shows no record with that id. *)
Theorem marking_relists_the_record (id : Z) (m : TaskManager.t) (w : World) :
  NoDup (map TaskTracker.getId (liveRecords (TaskManager.tasks m))) ->
  hasLive id (TaskManager.tasks m) ->
  (let m' := fst (TaskManager.markDone id m w) in
   (exists x, In x (filter (hasStatus "done") (TaskManager.tasks m')) /\
              TaskTracker.getId x = id /\ TaskTracker.updatedAt x = clock w) /\
   (forall s' x, s' <> "done" -> In x (filter (hasStatus s') (TaskManager.tasks m')) ->
                 TaskTracker.getId x <> id)) /\
  (let m' := fst (TaskManager.markInProgress id m w) in
   (exists x, In x (filter (hasStatus "in-progress") (TaskManager.tasks m')) /\
              TaskTracker.getId x = id /\ TaskTracker.updatedAt x = clock w) /\
   (forall s' x, s' <> "in-progress" ->
                 In x (filter (hasStatus s') (TaskManager.tasks m')) ->
                 TaskTracker.getId x <> id)).
Proof.
  intros Hdup Hlive. split.
  - exact (setStatus_relists id "done" "Task marked as done" m w Hdup Hlive).
  - exact (setStatus_relists id "in-progress" "Task marked as in progress" m w Hdup Hlive).
Qed.

Lemma marking_relists_the_record_witness :
  let m := TaskManager.mk [TaskTracker.mk 1 false "Buy milk" "todo" "c" "u";
                           TaskTracker.mk 2 false "Call Bob" "todo" "c" "u"] 3 in
  let w := mkWorld None "" "now" in
  let m' := fst (TaskManager.markDone 1 m w) in
  (exists x, In x (filter (hasStatus "done") (TaskManager.tasks m')) /\
             TaskTracker.getId x = 1 /\ TaskTracker.updatedAt x = "now") /\
  (forall x, In x (filter (hasStatus "todo") (TaskManager.tasks m')) ->
             TaskTracker.getId x <> 1).
Proof.
  intros m w m'.
  assert (Hdup : NoDup (map TaskTracker.getId (liveRecords (TaskManager.tasks m))))
    by (cbn; repeat constructor; cbn; intuition discriminate).
  assert (Hlive : hasLive 1 (TaskManager.tasks m))
    by (eexists; split; [left; reflexivity | split; reflexivity]).
  destruct (marking_relists_the_record 1 m w Hdup Hlive) as [[H1 H2] _].
  split; [exact H1|]. intros x. apply (H2 "todo" x). discriminate.
Defined.

(** X14: a deleted id is gone for every verb.  In a store whose live
    records have pairwise distinct ids and whose [nextId] lies above the
    id, after [deleteTask] has found the id and after any further
    operations, [updateTask], [markInProgress] and [markDone] on that id
    print the not-found message and change neither the vector nor the
    file. *)
Theorem deleted_id_is_not_found (id : Z) (description : string) (m : TaskManager.t)
    (w : World) (rs : list request) :
  NoDup (map TaskTracker.getId (liveRecords (TaskManager.tasks m))) ->
  INT_MIN <= id < TaskManager.nextId m ->
  TaskManager.nextId m + Z.of_nat (List.length rs) <= INT_MAX ->
  hasLive id (TaskManager.tasks m) ->
  let st := serveAll rs (TaskManager.deleteTask id m w) in
  TaskManager.updateTask id description (fst st) (snd st)
    = (fst st, print (TaskManager.notFound id) (snd st)) /\
  TaskManager.markInProgress id (fst st) (snd st)
    = (fst st, print (TaskManager.notFound id) (snd st)) /\
  TaskManager.markDone id (fst st) (snd st)
    = (fst st, print (TaskManager.notFound id) (snd st)).
Proof.
  intros Hdup Hid Hmax Hlive st.
  assert (Hgone : ~ hasLive id (TaskManager.tasks (fst st))).
  { subst st. apply serveAll_keeps_retired.
    - destruct (mutate_ids id TaskTracker.deleteTask "Task deleted successfully" m w
                  (fun _ => eq_refl)) as [_ En].
      unfold TaskManager.deleteTask. rewrite En. exact Hid.
    - destruct (mutate_ids id TaskTracker.deleteTask "Task deleted successfully" m w
                  (fun _ => eq_refl)) as [_ En].
      unfold TaskManager.deleteTask. rewrite En. exact Hmax.
    - unfold TaskManager.deleteTask.
      destruct (mutate_cases id TaskTracker.deleteTask "Task deleted successfully" m w)
        as [[Hno _] | (l1 & x & l2 & E & Hno1 & Hxid & Hxl & ->)]; [contradiction|].
      cbn [fst TaskManager.tasks]. rewrite E in Hdup.
      pose proof (unique_live_split l1 l2 x Hdup Hxl) as Hno2. rewrite Hxid in Hno2.
      intros H. apply hasLive_app in H. destruct H as [H|H]; [auto|].
      destruct H as (y & [<-|Hin] & Hy & Hyl); [discriminate|].
      apply Hno2. exists y. auto. }
  repeat split; now apply miss_changes_nothing.
Qed.

Lemma deleted_id_is_not_found_witness :
  let m := TaskManager.mk [TaskTracker.mk 1 false "Buy milk" "todo" "c" "u";
                           TaskTracker.mk 2 false "Call Bob" "todo" "c" "u"] 3 in
  let w := mkWorld None "" "now" in
  let st := serveAll [Add "more"; ListAll] (TaskManager.deleteTask 1 m w) in
  TaskManager.updateTask 1 "x" (fst st) (snd st)
    = (fst st, print (TaskManager.notFound 1) (snd st)).
Proof.
  intros m w st.
  refine (proj1 (deleted_id_is_not_found 1 "x" m w [Add "more"; ListAll] _ _ _ _)).
  - cbn. repeat constructor; cbn; intuition discriminate.
  - cbn. unfold INT_MIN. lia.
  - cbn. unfold INT_MAX. lia.
  - eexists. split; [left; reflexivity | split; reflexivity].
Defined.

(** ** Further properties: the exit code *)

Lemma withId_exit_one (argv : list string) (need : nat) (missing : string)
    (op : Z -> TaskManager.t -> World -> TaskManager.t * World)
    (m : TaskManager.t) (w : World) :
  fst (withId argv need missing op m w) = Exit 1 <-> (List.length argv < need)%nat.
Proof.
  rewrite withId_exit. destruct (Nat.ltb_spec (List.length argv) need) as [Hlt|Hge].
  - tauto.
  - split; [|lia]. destruct (stoi (argvAt argv 2)); discriminate.
Qed.

(** X15: when the store has loaded, [main] returns 1 in exactly these
    cases: no verb; [add] without a description; [update] without an id
    and a description; [delete], [mark-in-progress] or [mark-done] without
    an id; a verb that is none of the six.  Neither [list], whatever
    follows it, nor an id that no record has gives exit code 1, and no
    other code than 0 or 1 is ever returned. *)
Theorem main_exits_one_iff (argv : list string) (w : World) (m : TaskManager.t) :
  TaskManager.construct w = Ok m ->
  let verb := argvAt argv 1 in
  let argc := List.length argv in
  (fst (main argv w) = Exit 1 <->
     (argc < 2)%nat \/
     (verb = "add" /\ (argc < 3)%nat) \/
     (verb = "update" /\ (argc < 4)%nat) \/
     (In verb ["delete"; "mark-in-progress"; "mark-done"] /\ (argc < 3)%nat) \/
     ~ In verb ["add"; "update"; "delete"; "mark-in-progress"; "mark-done"; "list"]) /\
  (forall c, fst (main argv w) = Exit c -> c = 0 \/ c = 1).
Proof.
  intros Hc verb argc. subst verb argc. unfold main. rewrite Hc.
  destruct (Nat.ltb_spec (List.length argv) 2) as [Hlt|Hge].
  { cbn [fst]. split; [tauto|]. intros c E. injection E as <-. now right. }
  destruct (String.eqb_spec (argvAt argv 1) "add") as [E|Nadd].
  { rewrite E. destruct (Nat.ltb_spec (List.length argv) 3) as [H3|H3]; cbn [fst].
    - split; [tauto|]. intros c Ec. injection Ec as <-. now right.
    - split.
      + split; [discriminate|].
        intros [H|[[_ H]|[[H _]|[[H _]|H]]]]; try lia; try discriminate.
        * cbn in H. intuition discriminate.
        * exfalso. apply H. now left.
      + intros c Ec. injection Ec as <-. now left. }
  destruct (String.eqb_spec (argvAt argv 1) "update") as [E|Nupd].
  { rewrite E. rewrite withId_exit_one. split.
    - split; [tauto|].
      intros [H|[[H _]|[[_ H]|[[H _]|H]]]]; try lia; try discriminate.
      + cbn in H. intuition discriminate.
      + exfalso. apply H. cbn. tauto.
    - intros c. rewrite withId_exit. destruct (_ <? _)%nat;
        [|destruct (stoi (argvAt argv 2))]; intros Ec; try discriminate;
        injection Ec as <-; tauto. }
  assert (IdVerb : forall missing op,
            In (argvAt argv 1) ["delete"; "mark-in-progress"; "mark-done"] ->
            (fst (withId argv 3 missing op m w) = Exit 1 <->
               (List.length argv < 2)%nat \/
               (argvAt argv 1 = "add" /\ (List.length argv < 3)%nat) \/
               (argvAt argv 1 = "update" /\ (List.length argv < 4)%nat) \/
               (In (argvAt argv 1) ["delete"; "mark-in-progress"; "mark-done"]
                /\ (List.length argv < 3)%nat) \/
               ~ In (argvAt argv 1)
                   ["add"; "update"; "delete"; "mark-in-progress"; "mark-done"; "list"]) /\
            (forall c, fst (withId argv 3 missing op m w) = Exit c -> c = 0 \/ c = 1)).
  { intros missing op Hin. rewrite withId_exit_one. split.
    - split; [tauto|].
      intros [H|[[H _]|[[H _]|[[_ H]|H]]]]; try lia; try contradiction.
      exfalso. apply H. cbn in Hin |- *. tauto.
    - intros c. rewrite withId_exit. destruct (_ <? _)%nat;
        [|destruct (stoi (argvAt argv 2))]; intros Ec; try discriminate;
        injection Ec as <-; tauto. }
  destruct (String.eqb_spec (argvAt argv 1) "delete") as [E|Ndel];
    [apply IdVerb; rewrite E; cbn; tauto|].
  destruct (String.eqb_spec (argvAt argv 1) "mark-in-progress") as [E|Nmip];
    [apply IdVerb; rewrite E; cbn; tauto|].
  destruct (String.eqb_spec (argvAt argv 1) "mark-done") as [E|Nmd];
    [apply IdVerb; rewrite E; cbn; tauto|].
  destruct (String.eqb_spec (argvAt argv 1) "list") as [E|Nlist].
  - assert (Zero : fst (if (List.length argv =? 2)%nat
                        then (Exit 0, TaskManager.listAllTasks m w)
                        else if (List.length argv =? 3)%nat
                             then if (argvAt argv 2 =? "in-progress")%string
                                  then (Exit 0, TaskManager.listTasksByStatus "in-progress" m w)
                                  else (Exit 0, TaskManager.listTasksByStatus (argvAt argv 2) m w)
                             else (Exit 0, w)) = Exit 0).
    { destruct (_ =? 2)%nat; [reflexivity|]. destruct (_ =? 3)%nat; [|reflexivity].
      destruct (_ =? _)%string; reflexivity. }
    rewrite Zero. split.
    + split; [discriminate|].
      intros [H|[[H _]|[[H _]|[[H _]|H]]]]; try lia; try congruence.
      * cbn in H. rewrite E in H. intuition discriminate.
      * exfalso. apply H. rewrite E. cbn. tauto.
    + intros c Ec. injection Ec as <-. now left.
  - cbn [fst]. split.
    + split; [intros _|reflexivity]. right. right. right. right.
      cbn. intuition congruence.
    + intros c Ec. injection Ec as <-. now right.
Qed.

Lemma main_exits_one_iff_witness :
  let w := mkWorld None "" "now" in
  fst (main ["task-cli"; "mark-done"] w) = Exit 1 /\
  fst (main ["task-cli"; "remove"; "1"] w) = Exit 1 /\
  fst (main ["task-cli"; "list"; "a"; "b"] w) <> Exit 1.
Proof.
  intros w.
  pose proof (fun argv => proj1 (main_exits_one_iff argv w TaskManager.init eq_refl)) as H.
  split; [|split].
  - apply (H ["task-cli"; "mark-done"]). right. right. right. left.
    split; [cbn; tauto | cbn; lia].
  - apply (H ["task-cli"; "remove"; "1"]). right. right. right. right.
    cbn. intuition discriminate.
  - intros E. apply (H ["task-cli"; "list"; "a"; "b"]) in E.
    cbn in E. destruct E as [E|[[E _]|[[E _]|[[E _]|E]]]];
      try lia; try discriminate; [intuition discriminate | apply E; tauto].
Defined.

(** ** Further properties: data the program drops without a word *)



(** ** Further properties: what a deletion takes out of the listing *)

(** X17: [deleteTask] takes exactly one record out of the listing: the
    first live record with the id.  The live records before it and behind
    it stay as they are and in their order, whether or not some of them
    carry the same id. *)
Theorem deleteTask_removes_one (id : Z) (m : TaskManager.t) (w : World) :
  hasLive id (TaskManager.tasks m) ->
  exists before x behind,
    liveRecords (TaskManager.tasks m) = (before ++ x :: behind)%list /\
    TaskTracker.getId x = id /\
    Forall (fun y => TaskTracker.getId y <> id) before /\
    liveRecords (TaskManager.tasks (fst (TaskManager.deleteTask id m w)))
      = (before ++ behind)%list.
Proof.
  intros Hlive. unfold TaskManager.deleteTask.
  destruct (mutate_cases id TaskTracker.deleteTask "Task deleted successfully" m w)
    as [[Hno _] | (l1 & x & l2 & E & Hno1 & Hxid & Hxl & ->)]; [contradiction|].
  cbn [fst TaskManager.tasks].
  exists (liveRecords l1), x, (liveRecords l2). repeat split.
  - now rewrite E, liveRecords_app, (liveRecords_cons_live x l2 Hxl).
  - exact Hxid.
  - apply Forall_forall. apply (hasLive_listed id l1 Hno1).
  - rewrite liveRecords_app. f_equal.
Qed.

Lemma deleteTask_removes_one_witness :
  let a := TaskTracker.mk 1 false "first" "todo" "c" "u" in
  let b := TaskTracker.mk 2 false "second" "todo" "c" "u" in
  let c := TaskTracker.mk 3 false "third" "todo" "c" "u" in
  let m := TaskManager.mk [a; b; c] 4 in
  exists before x behind,
    liveRecords (TaskManager.tasks m) = (before ++ x :: behind)%list /\
    TaskTracker.getId x = 2 /\
    Forall (fun y => TaskTracker.getId y <> 2) before /\
    liveRecords (TaskManager.tasks
                   (fst (TaskManager.deleteTask 2 m (mkWorld None "" "now"))))
      = (before ++ behind)%list.
Proof.
  intros a b c m. apply (deleteTask_removes_one 2 m (mkWorld None "" "now")).
  exists b. split; [right; left; reflexivity | split; reflexivity].
Defined.
